(** * mail-analyzer: the email content normalisation and extraction engine

    A shallow embedding of [email/email.go] ([Parse], [extractBodyAndURLs],
    [decodeCharset]) and of the mbox loop of [main], with the properties the
    specification states about them; and of what stands around them: the
    prompt of [analyzer.go], [config.Load] and the reading of the answer in
    [llm.go], with further properties of the code.

    Go strings and byte slices are sequences of 8-bit bytes: they are
    [string]s here ([ascii] is one byte), and [string(content)] is the
    identity.  The calls into go-message, mime/multipart and x/text are not
    part of this repository: an [Entity], a [Part] and a [Reader] carry what
    those calls return, and the decoders are parameters of the development,
    as are the calls into os, encoding/json and envconfig. *)

From Stdlib Require Import Strings.String Strings.Ascii List Bool Arith Lia.
From stdpp Require Import base option gmap strings list.

Set Warnings "-register-all".

Open Scope string_scope.
Open Scope list_scope.

(* ===================================================================== *)
(** ** Errors and results *)
(* ===================================================================== *)

(** Go [error] values.  [Wrapf] is [fmt.Errorf] with the verb [%w]. *)
Inductive error : Type :=
| LibError (msg : string)
| Errorf (msg : string)
| Wrapf (msg : string) (inner : error).

(** A call returning [(value, err)] whose value is only used when [err] is
    [nil]. *)
Inductive result (A : Type) : Type :=
| Ok (a : A)
| Err (e : error).

Arguments Ok {A} a.
Arguments Err {A} e.

Definition isOk {A} (r : result A) : bool :=
  match r with Ok _ => true | Err _ => false end.

(* ===================================================================== *)
(** ** package strings *)
(* ===================================================================== *)

Definition byte (n : nat) : ascii := ascii_of_nat n.

Definition isByte (c : ascii) (n : nat) : bool := Ascii.eqb c (byte n).

(** Membership of a byte in a cutset of ASCII characters. *)
Fixpoint inCutset (c : ascii) (cutset : string) : bool :=
  match cutset with
  | EmptyString => false
  | String d rest => Ascii.eqb c d || inCutset c rest
  end.

(** [strings.TrimLeft(s, cutset)] for an ASCII cutset. *)
Fixpoint TrimLeft (s cutset : string) : string :=
  match s with
  | EmptyString => EmptyString
  | String c s' => if inCutset c cutset then TrimLeft s' cutset else s
  end.

(** [strings.TrimRight(s, cutset)] for an ASCII cutset: the trailing run of
    cutset bytes is removed. *)
Fixpoint TrimRight (s cutset : string) : string :=
  match s with
  | EmptyString => EmptyString
  | String c s' =>
      match TrimRight s' cutset with
      | EmptyString => if inCutset c cutset then EmptyString else String c EmptyString
      | t => String c t
      end
  end.

(** [strings.Trim(s, cutset)]. *)
Definition Trim (s cutset : string) : string :=
  TrimRight (TrimLeft s cutset) cutset.

(** [unicode.IsSpace], on the UTF-8 encoding of the rune.  One byte:
    TAB, LF, VT, FF, CR, SPACE. *)
Definition isSpace1 (c : ascii) : bool :=
  isByte c 9 || isByte c 10 || isByte c 11 || isByte c 12 || isByte c 13
  || isByte c 32.

(** Two bytes: U+0085 (C2 85) and U+00A0 (C2 A0). *)
Definition isSpace2 (c1 c2 : ascii) : bool :=
  isByte c1 194 && (isByte c2 133 || isByte c2 160).

(** Three bytes: U+1680 (E1 9A 80), U+2000..U+200A (E2 80 80..8A), U+2028,
    U+2029, U+202F (E2 80 A8/A9/AF), U+205F (E2 81 9F), U+3000 (E3 80 80). *)
Definition isSpace3 (c1 c2 c3 : ascii) : bool :=
  (isByte c1 225 && isByte c2 154 && isByte c3 128)
  || (isByte c1 226 && isByte c2 128
      && ((Nat.leb 128 (nat_of_ascii c3) && Nat.leb (nat_of_ascii c3) 138)
          || isByte c3 168 || isByte c3 169 || isByte c3 175))
  || (isByte c1 226 && isByte c2 129 && isByte c3 159)
  || (isByte c1 227 && isByte c2 128 && isByte c3 128).

(** [strings.TrimLeftFunc(s, unicode.IsSpace)]. *)
Fixpoint trimLeftSpace (s : string) : string :=
  match s with
  | EmptyString => EmptyString
  | String c1 t1 =>
      if isSpace1 c1 then trimLeftSpace t1
      else match t1 with
           | EmptyString => s
           | String c2 t2 =>
               if isSpace2 c1 c2 then trimLeftSpace t2
               else match t2 with
                    | EmptyString => s
                    | String c3 t3 =>
                        if isSpace3 c1 c2 c3 then trimLeftSpace t3 else s
                    end
           end
  end.

(** [strings.TrimRightFunc(s, unicode.IsSpace)] on the reversed string: the
    last rune is read backwards. *)
Fixpoint trimSpaceRev (s : string) : string :=
  match s with
  | EmptyString => EmptyString
  | String c1 t1 =>
      if isSpace1 c1 then trimSpaceRev t1
      else match t1 with
           | EmptyString => s
           | String c2 t2 =>
               if isSpace2 c2 c1 then trimSpaceRev t2
               else match t2 with
                    | EmptyString => s
                    | String c3 t3 =>
                        if isSpace3 c3 c2 c1 then trimSpaceRev t3 else s
                    end
           end
  end.

Definition trimRightSpace (s : string) : string :=
  String.rev (trimSpaceRev (String.rev s)).

(** [strings.TrimSpace(s)]. *)
Definition TrimSpace (s : string) : string :=
  trimRightSpace (trimLeftSpace s).

(** [strings.HasPrefix(s, prefix)]. *)
Definition HasPrefix (s pre : string) : bool := String.prefix pre s.

(** [strings.Fields(s)]: the maximal runs of non-space runes.  [cur] is the
    field being read, reversed. *)
Fixpoint fieldsFrom (s : string) (cur : string) : list string :=
  let flush (rest : list string) :=
    match cur with
    | EmptyString => rest
    | _ => String.rev cur :: rest
    end in
  match s with
  | EmptyString => flush []
  | String c1 t1 =>
      if isSpace1 c1 then flush (fieldsFrom t1 EmptyString)
      else match t1 with
           | EmptyString => fieldsFrom t1 (String c1 cur)
           | String c2 t2 =>
               if isSpace2 c1 c2 then flush (fieldsFrom t2 EmptyString)
               else match t2 with
                    | EmptyString => fieldsFrom t1 (String c1 cur)
                    | String c3 t3 =>
                        if isSpace3 c1 c2 c3
                        then flush (fieldsFrom t3 EmptyString)
                        else fieldsFrom t1 (String c1 cur)
                    end
           end
  end.

Definition Fields (s : string) : list string := fieldsFrom s EmptyString.

(** [strings.Join(elems, sep)]. *)
Fixpoint Join (elems : list string) (sep : string) : string :=
  match elems with
  | [] => EmptyString
  | [e] => e
  | e :: rest => e +:+ sep +:+ Join rest sep
  end.

(** ASCII lower-casing: what [strings.ToLower] does on an ASCII string. *)
Definition asciiLower (c : ascii) : ascii :=
  let n := nat_of_ascii c in
  if Nat.leb 65 n && Nat.leb n 90 then ascii_of_nat (n + 32) else c.

Fixpoint asciiToLower (s : string) : string :=
  match s with
  | EmptyString => EmptyString
  | String c s' => String (asciiLower c) (asciiToLower s')
  end.

(** Substring test, used to state what a body contains. *)
Fixpoint Contains (s sub : string) : bool :=
  String.prefix sub s
  || match s with
     | EmptyString => false
     | String _ s' => Contains s' sub
     end.

(* ===================================================================== *)
(** ** package regexp *)
(* ===================================================================== *)

(** The fragment of RE2 syntax the three patterns of [email.go] use.
    Repetition is over a single character class, as in every pattern here;
    [Star true] is the greedy [x*], [Star false] the lazy [x*?].  Matching
    is on bytes: the classes are ASCII literals or complements of ASCII
    sets, so every byte of a multi-byte rune is in a complemented class
    and a rune-wise match has the same extent. *)
Inductive regex : Type :=
| Chr (c : ascii)
| Class (p : ascii -> bool)
| Cat (r1 r2 : regex)
| Quest (r : regex)
| Star (greedy : bool) (p : ascii -> bool)
| Group (r : regex).

(** A literal string. *)
Fixpoint Lit (s : string) (k : regex) : regex :=
  match s with
  | EmptyString => k
  | String c s' => Cat (Chr c) (Lit s' k)
  end.

Section Exec.
Context {R : Type}.

(** [p*] then the continuation, longest run first. *)
Fixpoint starGreedy (p : ascii -> bool) (s : string) (pos : nat)
    (k : string -> nat -> option R) : option R :=
  match s with
  | String c s' =>
      if p c then
        match starGreedy p s' (S pos) k with
        | Some x => Some x
        | None => k s pos
        end
      else k s pos
  | EmptyString => k s pos
  end.

(** [p*?] then the continuation, shortest run first. *)
Fixpoint starLazy (p : ascii -> bool) (s : string) (pos : nat)
    (k : string -> nat -> option R) : option R :=
  match k s pos with
  | Some x => Some x
  | None =>
      match s with
      | String c s' => if p c then starLazy p s' (S pos) k else None
      | EmptyString => None
      end
  end.

End Exec.

(** The match a backtracking search finds first (Go's leftmost-first rule)
    for [r] at the head of [s].  [pos] counts the bytes consumed, [cap] is
    the extent of the capturing group. *)
Fixpoint exec {R : Type} (r : regex) (s : string) (pos : nat)
    (cap : option (nat * nat))
    (k : string -> nat -> option (nat * nat) -> option R) : option R :=
  match r with
  | Chr c =>
      match s with
      | String d s' => if Ascii.eqb d c then k s' (S pos) cap else None
      | EmptyString => None
      end
  | Class p =>
      match s with
      | String d s' => if p d then k s' (S pos) cap else None
      | EmptyString => None
      end
  | Cat r1 r2 =>
      exec r1 s pos cap (fun s1 p1 c1 => exec r2 s1 p1 c1 k)
  | Quest r1 =>
      match exec r1 s pos cap k with
      | Some x => Some x
      | None => k s pos cap
      end
  | Star true p => starGreedy p s pos (fun s1 p1 => k s1 p1 cap)
  | Star false p => starLazy p s pos (fun s1 p1 => k s1 p1 cap)
  | Group r1 =>
      exec r1 s pos cap (fun s1 p1 _ => k s1 p1 (Some (pos, p1)))
  end.

(** Length of the match of [r] at the head of [s], and the group. *)
Definition matchAt (r : regex) (s : string) : option (nat * option (nat * nat)) :=
  exec r s 0 None (fun _ n cap => Some (n, cap)).

Definition submatch (s : string) (cap : option (nat * nat)) : string :=
  match cap with
  | Some (a, b) => substring a (b - a) s
  | None => EmptyString
  end.

(** Successive non-overlapping matches, left to right: each is the whole
    match with the text of group 1.  [skip] is the number of bytes still
    covered by the previous match.  A pattern of [email.go] starts with a
    literal and never matches the empty string, so an empty match counts as
    no match at that position. *)
Fixpoint findAll (r : regex) (s : string) (skip : nat) : list (string * string) :=
  match s with
  | EmptyString => []
  | String _ s' =>
      match skip with
      | S n => findAll r s' n
      | O =>
          match matchAt r s with
          | Some (S n, cap) => (substring 0 (S n) s, submatch s cap) :: findAll r s' n
          | _ => findAll r s' 0
          end
      end
  end.

(** [re.FindAllString(s, -1)]. *)
Definition FindAllString (r : regex) (s : string) : list string :=
  map fst (findAll r s 0).

(** [re.FindAllStringSubmatch(s, -1)], keeping [match[1]] of each match. *)
Definition FindAllStringSubmatch1 (r : regex) (s : string) : list string :=
  map snd (findAll r s 0).

(** [re.ReplaceAllString(s, repl)] for a replacement without [$]. *)
Fixpoint replaceAll (r : regex) (repl : string) (s : string) (skip : nat) : string :=
  match s with
  | EmptyString => EmptyString
  | String c s' =>
      match skip with
      | S n => replaceAll r repl s' n
      | O =>
          match matchAt r s with
          | Some (S n, _) => repl +:+ replaceAll r repl s' n
          | _ => String c (replaceAll r repl s' 0)
          end
      end
  end.

Definition ReplaceAllString (r : regex) (s repl : string) : string :=
  replaceAll r repl s 0.

(** [\s] of RE2: TAB, LF, FF, CR, SPACE. *)
Definition reSpace (c : ascii) : bool :=
  isByte c 9 || isByte c 10 || isByte c 12 || isByte c 13 || isByte c 32.

(** [[^...]]: any byte outside the class. *)
Definition notIn (white : bool) (set : string) (c : ascii) : bool :=
  negb ((white && reSpace c) || inCutset c set).

(** [.]: any byte but LF. *)
Definition dot (c : ascii) : bool := negb (isByte c 10).

Definition dq : ascii := byte 34.
Definition sq : ascii := byte 39.
Definition quotes : string := String dq (String sq EmptyString).

(** [hrefRegex], line 72: the literal href, [\s*], an equals sign, [\s*],
    a double or single quote, the group [https?://] followed by one or
    more bytes other than the double quote, and a double or single quote. *)
Definition hrefRegex : regex :=
  Lit "href"
    (Cat (Star true reSpace)
    (Cat (Chr "=")
    (Cat (Star true reSpace)
    (Cat (Class (fun c => inCutset c quotes))
    (Cat (Group
            (Lit "http"
              (Cat (Quest (Chr "s"))
              (Lit "://"
                (Cat (Class (notIn false (String dq EmptyString)))
                     (Star true (notIn false (String dq EmptyString))))))))
         (Class (fun c => inCutset c quotes))))))).

(** [urlRegex], line 73: [https?://], any number of bytes that are not
    white space, a double quote or an angle bracket, then one such byte
    that is also none of [,.?!;)]. *)
Definition urlRegex : regex :=
  Lit "http"
    (Cat (Quest (Chr "s"))
    (Lit "://"
      (Cat (Star true (notIn true (String dq "<>")))
           (Class (notIn true (String dq "<>,.?!;)")))))).

(** The tag pattern of lines 128 and 168: an opening angle bracket, a lazy
    run of bytes other than LF, a closing angle bracket. *)
Definition tagRegex : regex :=
  Cat (Chr "<") (Cat (Star false dot) (Chr ">")).

(* ===================================================================== *)
(** ** The external mail, MIME and mbox readers *)
(* ===================================================================== *)

(** A Go [map[string]string] read at [k]: a missing key reads as the empty
    string. *)
Definition index (m : gmap string string) (k : string) : string :=
  default EmptyString (m !! k).

(** [mail.Address]. *)
Record mail_Address : Type := mkAddress {
  Name : string;
  Address : string
}.

(** [mail.Header], through the calls [Parse] and [extractBodyAndURLs] make
    on it.  Each call returns its value next to its error, as in Go. *)
Record mail_Header : Type := mkHeader {
  Header_ContentType : result (string * gmap string string);
  Header_AddressList : string -> list mail_Address * option error;
  Header_Subject : string * option error;
  Header_MessageID : string * option error
}.

(** A [multipart.Part]: [mime.ParseMediaType] of its Content-Type field and
    [io.ReadAll] of its content. *)
Record multipart_Part : Type := mkPart {
  Part_ContentType : result (string * gmap string string);
  Part_ReadAll : string * option error
}.

(** One call of [mr.NextPart] that did not return [io.EOF]. *)
Inductive NextPart : Type :=
| NextPartErr (err : error)
| NextPartOk (part : multipart_Part).

(** [entity.Body]: [io.ReadAll] of it, and the calls of [NextPart] a
    [multipart.NewReader] over it with a given boundary answers before
    [io.EOF]. *)
Record Body : Type := mkBody {
  ReadAll : string * option error;
  NextParts : string -> list NextPart
}.

(** [message.Entity]. *)
Record message_Entity : Type := mkEntity {
  Entity_Header : mail_Header;
  Entity_Body : Body
}.

(** The [io.Reader] given to [Parse], through [message.Read]. *)
Record Reader : Type := mkReader {
  message_Read : result message_Entity
}.

(** One call of [mboxReader.NextMessage] that did not return [io.EOF]. *)
Inductive NextMessage : Type :=
| NextMessageErr (err : error)
| NextMessageOk (rawMessage : Reader).

(** The decoders of [golang.org/x/text/encoding/japanese]. *)
Inductive Encoding : Type := ISO2022JP | ShiftJIS | EUCJP.

(** [ParsedEmail] holds the extracted information from an email. *)
Record ParsedEmail : Type := mkParsedEmail {
  MessageID : string;
  From : list mail_Address;
  To : list mail_Address;
  Subject : string;
  Body_ : string;
  URLs : list string;
  Header : mail_Header
}.

(* ===================================================================== *)
(** ** email.go *)
(* ===================================================================== *)

Definition punctuation : string := ".?!,;)".

(** Lines 178-186: the loop over [urls], on the state
    [(uniqueUrls, resultUrls)]. *)
Fixpoint dedupLoop (st : gmap string bool * list string) (urls : list string)
    : gmap string bool * list string :=
  match urls with
  | [] => st
  | u :: rest =>
      let u := TrimRight u punctuation in
      if negb (default false (st.1 !! u))
      then dedupLoop (<[u := true]> st.1, st.2 ++ [u]) rest
      else dedupLoop st rest
  end.

Definition uniqueURLs (urls : list string) : list string :=
  (dedupLoop (∅, []) urls).2.

(** Lines 120-133 and 160-173, the same statements in both branches: the
    href pass, the tag stripping of a text/html text, the free-text pass.
    Gives the grown [urls] and the text to write to the body. *)
Definition scanText (mediaType text : string) (urls : list string)
    : list string * string :=
  let urls := urls ++ FindAllStringSubmatch1 hrefRegex text in
  let text :=
    if String.eqb mediaType "text/html"
    then ReplaceAllString tagRegex text " "
    else text in
  let urls := urls ++ FindAllString urlRegex text in
  (urls, text).

Section Engine.

(** [strings.ToLower]. *)
Variable ToLower : string -> string.

(** [transform.Bytes(enc.NewDecoder(), content)]. *)
Variable transformBytes : Encoding -> string -> result string.

(** [decodeCharset] decodes content from a given charset to UTF-8. *)
Definition decodeCharset (content charset : string) : result string :=
  let charset := ToLower charset in
  let decode (decoder : Encoding) : result string :=
    match transformBytes decoder content with
    | Err err => Err (Wrapf ("failed to decode content from " +:+ charset) err)
    | Ok decoded => Ok decoded
    end in
  if String.eqb charset "iso-2022-jp" then decode ISO2022JP
  else if String.eqb charset "shift_jis" || String.eqb charset "shift-jis"
  then decode ShiftJIS
  else if String.eqb charset "euc-jp" || String.eqb charset "euc_jp"
  then decode EUCJP
  else if String.eqb charset "utf-8" then Ok content
  else Err (Errorf ("unsupported charset: " +:+ charset)).

(** Lines 106-115 and 147-156, the same statements in both branches: the
    content is replaced by its decoding when a charset is declared and
    [decodeCharset] returns no error. *)
Definition decodeDeclared (content charset : string) : string :=
  if String.eqb charset EmptyString then content
  else match decodeCharset content charset with
       | Ok decodedContent => decodedContent
       | Err _ => content
       end.

(** Lines 83-137: the body of the loop over the parts, on the state
    [(bodyBuilder, urls)].  Each [continue] leaves the state as it is. *)
Definition partStep (st : string * list string) (next : NextPart)
    : string * list string :=
  match next with
  | NextPartErr _ => st
  | NextPartOk part =>
      match Part_ContentType part with
      | Err _ => st
      | Ok (partMediaType, partParams) =>
          match Part_ReadAll part with
          | (_, Some _) => st
          | (partContent, None) =>
              let partContent :=
                decodeDeclared partContent (index partParams "charset") in
              if String.eqb partMediaType "text/html"
                 || String.eqb partMediaType "text/plain"
              then
                let '(urls, partBodyText) :=
                  scanText partMediaType partContent st.2 in
                (st.1 +:+ partBodyText +:+ String (byte 10) EmptyString, urls)
              else st
          end
      end
  end.

(** Lines 63-176: what is written to [bodyBuilder] and appended to [urls]
    before the deduplication. *)
Definition collect (entity : message_Entity) : result (string * list string) :=
  let '(mediaType, params) :=
    match Header_ContentType (Entity_Header entity) with
    | Ok ct => ct
    | Err _ => ("text/plain", ∅)
    end in
  if HasPrefix mediaType "multipart/" then
    let boundary := index params "boundary" in
    if String.eqb boundary EmptyString then
      Ok ((ReadAll (Entity_Body entity)).1, [])
    else
      Ok (fold_left partStep (NextParts (Entity_Body entity) boundary)
            (EmptyString, []))
  else if String.eqb mediaType "text/plain" || String.eqb mediaType "text/html"
  then
    match ReadAll (Entity_Body entity) with
    | (_, Some err) => Err err
    | (content, None) =>
        let content := decodeDeclared content (index params "charset") in
        let '(urls, bodyText) := scanText mediaType content [] in
        Ok (bodyText, urls)
    end
  else Ok (EmptyString, []).

Definition extractBodyAndURLs (entity : message_Entity)
    : result (string * list string) :=
  match collect entity with
  | Err err => Err err
  | Ok (bodyBuilder, urls) => Ok (TrimSpace bodyBuilder, uniqueURLs urls)
  end.

(** [Parse] reads an email from an [io.Reader] and extracts key
    information. *)
Definition Parse (r : Reader) : result ParsedEmail :=
  match message_Read r with
  | Err err => Err (Wrapf "failed to read message entity" err)
  | Ok entity =>
      let header := Entity_Header entity in
      let from := (Header_AddressList header "From").1 in
      let to := (Header_AddressList header "To").1 in
      let subject := (Header_Subject header).1 in
      let messageID := (Header_MessageID header).1 in
      match extractBodyAndURLs entity with
      | Err err => Err err
      | Ok (body, urls) =>
          Ok {| MessageID := Trim messageID "<> ";
                From := from;
                To := to;
                Subject := subject;
                Body_ := body;
                URLs := urls;
                Header := header |}
      end
  end.

(* ===================================================================== *)
(** ** main.go, the mbox loop *)
(* ===================================================================== *)

(** [llm.Judgment], [emailAnalyzer.Analyze] and [addr.String]. *)
Variable Judgment : Type.
Variable Analyze : ParsedEmail -> result Judgment.
Variable Address_String : mail_Address -> string.

(** [AnalysisResult] is the result for a single email. *)
Record AnalysisResult : Type := mkAnalysisResult {
  Result_MessageID : string;
  Result_Subject : string;
  Result_From : list string;
  Result_To : list string;
  Result_Judgment : Judgment
}.

Definition convertAddresses (addresses : list mail_Address) : list string :=
  map Address_String addresses.

(** The body of the loop over the messages of the mbox, on [results]. *)
Definition messageStep (results : list AnalysisResult) (next : NextMessage)
    : list AnalysisResult :=
  match next with
  | NextMessageErr _ => results
  | NextMessageOk rawMessage =>
      match Parse rawMessage with
      | Err _ => results
      | Ok parsedEmail =>
          match Analyze parsedEmail with
          | Err _ => results
          | Ok judgment =>
              results ++
              [ {| Result_MessageID := MessageID parsedEmail;
                   Result_Subject := Subject parsedEmail;
                   Result_From := convertAddresses (From parsedEmail);
                   Result_To := convertAddresses (To parsedEmail);
                   Result_Judgment := judgment |} ]
          end
      end
  end.

(** Step 4 of [main]: [results] after the last message. *)
Definition processMessages (messages : list NextMessage) : list AnalysisResult :=
  fold_left messageStep messages [].

(* ===================================================================== *)
(** ** Vocabulary of the specification *)
(* ===================================================================== *)

(** Section 4.3, step 3, on the direct children of a multipart entity: the
    media type and decoded text of a child that is read without error and
    is text/plain or text/html. *)
Definition textChild (next : NextPart) : option (string * string) :=
  match next with
  | NextPartErr _ => None
  | NextPartOk part =>
      match Part_ContentType part, Part_ReadAll part with
      | Ok (partMediaType, partParams), (partContent, None) =>
          if String.eqb partMediaType "text/html"
             || String.eqb partMediaType "text/plain"
          then Some (partMediaType,
                     decodeDeclared partContent (index partParams "charset"))
          else None
      | _, _ => None
      end
  end.

(** The text a leaf adds to the body, and the URLs both passes find in it. *)
Definition leafText (leaf : string * string) : string :=
  (scanText leaf.1 leaf.2 []).2.

Definition leafURLs (leaf : string * string) : list string :=
  (scanText leaf.1 leaf.2 []).1.

Definition LF : string := String (byte 10) EmptyString.
Definition CRLF : string := String (byte 13) LF.

(** Each leaf of a multipart entity is followed by one line feed. *)
Definition joinLeaves (leaves : list (string * string)) : string :=
  fold_right (fun leaf rest => leafText leaf +:+ LF +:+ rest) EmptyString leaves.

(** Section 3, MimePart: a leaf with its media type, charset label and
    payload, or a multipart container with its subtype, boundary and
    children. *)
Inductive MimePart : Type :=
| Leaf (mediaType charset payload : string)
| Container (subtype boundary : string) (children : list MimePart).

Definition charsetParam (charset : string) : gmap string string :=
  if String.eqb charset EmptyString then ∅ else {[ "charset" := charset ]}.

(** The Content-Type field of a part, as written and as parsed. *)
Definition contentTypeField (t : MimePart) : string :=
  match t with
  | Leaf mediaType charset _ =>
      if String.eqb charset EmptyString then mediaType
      else mediaType +:+ "; charset=" +:+ charset
  | Container subtype boundary _ =>
      "multipart/" +:+ subtype +:+ "; boundary=" +:+ boundary
  end.

Definition contentTypeOf (t : MimePart) : string * gmap string string :=
  match t with
  | Leaf mediaType charset _ => (mediaType, charsetParam charset)
  | Container subtype boundary _ =>
      ("multipart/" +:+ subtype, {[ "boundary" := boundary ]})
  end.

(** The bytes of a part's content in multipart framing. *)
Fixpoint contentOf (t : MimePart) : string :=
  match t with
  | Leaf _ _ payload => payload
  | Container _ boundary children =>
      (fix frame (cs : list MimePart) : string :=
         match cs with
         | [] => "--" +:+ boundary +:+ "--"
         | c :: cs' =>
             "--" +:+ boundary +:+ CRLF +:+
             "Content-Type: " +:+ contentTypeField c +:+ CRLF +:+ CRLF +:+
             contentOf c +:+ CRLF +:+ frame cs'
         end) children
  end.

(** How the multipart reader hands over a child. *)
Definition asPart (t : MimePart) : multipart_Part :=
  {| Part_ContentType := Ok (contentTypeOf t);
     Part_ReadAll := (contentOf t, None) |}.

Definition childrenOf (t : MimePart) : list MimePart :=
  match t with
  | Leaf _ _ _ => []
  | Container _ _ children => children
  end.

Definition boundaryOf (t : MimePart) : string :=
  match t with
  | Leaf _ _ _ => EmptyString
  | Container _ boundary _ => boundary
  end.

(** A message whose content is the tree [t], under the header fields of
    [h]. *)
Definition asEntity (h : mail_Header) (t : MimePart) : message_Entity :=
  {| Entity_Header :=
       {| Header_ContentType := Ok (contentTypeOf t);
          Header_AddressList := Header_AddressList h;
          Header_Subject := Header_Subject h;
          Header_MessageID := Header_MessageID h |};
     Entity_Body :=
       {| ReadAll := (contentOf t, None);
          NextParts := fun boundary =>
            if String.eqb boundary (boundaryOf t)
            then map (fun c => NextPartOk (asPart c)) (childrenOf t)
            else [] |} |}.

(** The text leaves of a tree in document order, at any depth. *)
Fixpoint textLeaves (t : MimePart) : list (string * string) :=
  match t with
  | Leaf mediaType charset payload =>
      if String.eqb mediaType "text/html" || String.eqb mediaType "text/plain"
      then [(mediaType, decodeDeclared payload charset)]
      else []
  | Container _ _ children => flat_map textLeaves children
  end.

(** Section 8 on nested multipart, as the specification words it: the body
    contains the text of every leaf and the URL list is the merged,
    deduplicated list of the leaves' URLs. *)
Definition walksNested (h : mail_Header) (t : MimePart) : Prop :=
  exists body urls,
    extractBodyAndURLs (asEntity h t) = Ok (body, urls)
    /\ Forall (fun leaf => Contains body (TrimSpace (leafText leaf)) = true)
              (textLeaves t)
    /\ urls = uniqueURLs (flat_map leafURLs (textLeaves t)).

(** Section 4.4, [harvest(text, isHTML)]: both passes, the trim and the
    deduplication on one unit of text. *)
Definition harvest (isHTML : bool) (text : string) : list string :=
  uniqueURLs (scanText (if isHTML then "text/html" else "text/plain") text []).1.

(** The harvest run again on a URL list, each URL being a unit of text. *)
Definition reharvest (isHTML : bool) (urls : list string) : list string :=
  uniqueURLs
    (flat_map
       (fun u => (scanText (if isHTML then "text/html" else "text/plain") u []).1)
       urls).

(** The last byte of [s] is in [cutset]. *)
Fixpoint endsIn (s cutset : string) : bool :=
  match s with
  | EmptyString => false
  | String c EmptyString => inCutset c cutset
  | String _ s' => endsIn s' cutset
  end.

(** The [normalize] helper of email_test.go. *)
Definition normalize (s : string) : string := Join (Fields s) " ".

(** An entity without a Content-Type parameter map of its own: the header
    answers [ContentType] with [ct], and the body reads as [content]. *)
Definition leafEntity (h : mail_Header) (ct : result (string * gmap string string))
    (read : string * option error) : message_Entity :=
  {| Entity_Header :=
       {| Header_ContentType := ct;
          Header_AddressList := Header_AddressList h;
          Header_Subject := Header_Subject h;
          Header_MessageID := Header_MessageID h |};
     Entity_Body := {| ReadAll := read; NextParts := fun _ => [] |} |}.

(** [entity] with another answer to [ContentType]. *)
Definition withContentType (entity : message_Entity)
    (ct : result (string * gmap string string)) : message_Entity :=
  {| Entity_Header :=
       {| Header_ContentType := ct;
          Header_AddressList := Header_AddressList (Entity_Header entity);
          Header_Subject := Header_Subject (Entity_Header entity);
          Header_MessageID := Header_MessageID (Entity_Header entity) |};
     Entity_Body := Entity_Body entity |}.

(** [part] with another answer to [mime.ParseMediaType]. *)
Definition partWithContentType (part : multipart_Part)
    (ct : result (string * gmap string string)) : multipart_Part :=
  {| Part_ContentType := ct; Part_ReadAll := Part_ReadAll part |}.

(** The labels of the switch of [decodeCharset]. *)
Definition decoderTable : list (string * Encoding) :=
  [ ("iso-2022-jp", ISO2022JP); ("shift_jis", ShiftJIS); ("shift-jis", ShiftJIS);
    ("euc-jp", EUCJP); ("euc_jp", EUCJP) ].

Definition supportedLabels : list string := map fst decoderTable ++ ["utf-8"].

(** The trim of line 181. *)
Definition trim (u : string) : string := TrimRight u punctuation.

(** The map holds exactly the URLs of the slice, and the slice has no
    duplicates. *)
Definition dedupInv (st : gmap string bool * list string) : Prop :=
  (forall u, default false (st.1 !! u) = true <-> u ∈ st.2) /\ NoDup st.2.

(** The declared charset cannot be decoded: its lower-cased label is not in
    the switch, or the decoder of its case returns an error. *)
Definition decodeFails (content charset : string) : Prop :=
  ToLower charset ∉ supportedLabels
  \/ exists decoder err,
       (ToLower charset, decoder) ∈ decoderTable
       /\ transformBytes decoder content = Err err.

(** The media type [extractBodyAndURLs] works with: text/plain when
    [ContentType] returns an error. *)
Definition mediaTypeOf (entity : message_Entity) : string :=
  match Header_ContentType (Entity_Header entity) with
  | Ok ct => ct.1
  | Err _ => "text/plain"
  end.

(** The entity is a text part that is not multipart and [io.ReadAll] of its
    body returns an error. *)
Definition textBodyUnreadable (entity : message_Entity) : bool :=
  negb (HasPrefix (mediaTypeOf entity) "multipart/")
  && (String.eqb (mediaTypeOf entity) "text/plain"
      || String.eqb (mediaTypeOf entity) "text/html")
  && bool_decide (is_Some (ReadAll (Entity_Body entity)).2).

(** The record [main] appends for a parsed and analysed message. *)
Definition resultOf (parsedEmail : ParsedEmail) (judgment : Judgment)
    : AnalysisResult :=
  {| Result_MessageID := MessageID parsedEmail;
     Result_Subject := Subject parsedEmail;
     Result_From := convertAddresses (From parsedEmail);
     Result_To := convertAddresses (To parsedEmail);
     Result_Judgment := judgment |}.

(* ===================================================================== *)
(** ** Sample messages *)
(* ===================================================================== *)

(** A header without fields: go-message answers text/plain for a missing
    Content-Type and empty values for the other fields. *)
Definition noFields : mail_Header :=
  {| Header_ContentType := Ok ("text/plain", ∅);
     Header_AddressList := fun _ => ([], None);
     Header_Subject := (EmptyString, None);
     Header_MessageID := (EmptyString, None) |}.

(** A header whose From, To, Subject and Message-ID cannot be parsed. *)
Definition brokenFields : mail_Header :=
  {| Header_ContentType := Ok ("text/plain", ∅);
     Header_AddressList := fun _ => ([], Some (LibError "mail: missing @ in addr-spec"));
     Header_Subject := (EmptyString, Some (LibError "mime: invalid RFC 2047 encoded-word"));
     Header_MessageID := (EmptyString, Some (LibError "mail: missing angle bracket")) |}.

(** A decoder for the examples: it accepts ASCII text, which it leaves as
    it is, and refuses anything else. *)
Fixpoint isASCII (s : string) : bool :=
  match s with
  | EmptyString => true
  | String c s' => Nat.ltb (nat_of_ascii c) 128 && isASCII s'
  end.

Definition sampleDecoder (decoder : Encoding) (content : string) : result string :=
  if isASCII content then Ok content
  else Err (LibError "encoding: invalid byte").

(** TestExtractBodyAndURLs_URLTrimming of email_test.go. *)
Definition trimmingText : string :=
  "Check this out: http://example.com/page, or this one: http://google.com).".

(** The HTML Email case of TestParse. *)
Definition htmlText : string :=
  "<h1>Hello</h1><p>This is a <a href=" +:+ String dq "https://example.org"
  +:+ String dq ">link</a>.</p>".

(** An anchor whose tag is broken over two lines. *)
Definition twoLineTag : string :=
  "<a" +:+ LF +:+ "href=" +:+ String dq "http://x.example" +:+ String dq ">link</a>".

(** An anchor whose address holds a space. *)
Definition spacedHref : string :=
  "<a href=" +:+ String dq "http://a.example/x y" +:+ String dq ">".

(** multipart/mixed holding one multipart/alternative, which holds a
    text/plain and a text/html leaf. *)
Definition nestedMessage : MimePart :=
  Container "mixed" "outer"
    [ Container "alternative" "inner"
        [ Leaf "text/plain" EmptyString "Plain leaf http://plain.example/a";
          Leaf "text/html" EmptyString
            ("<p>Html leaf <a href=" +:+ String dq "http://html.example/b"
             +:+ String dq ">b</a></p>") ] ].

(** The same two leaves as direct children. *)
Definition flatMessage : MimePart :=
  Container "alternative" "inner"
    [ Leaf "text/plain" EmptyString "Plain leaf http://plain.example/a";
      Leaf "text/html" EmptyString
        ("<p>Html leaf <a href=" +:+ String dq "http://html.example/b"
         +:+ String dq ">b</a></p>") ].

(** TestExtractBodyAndURLs_Deduplication of email_test.go. *)
Definition dedupText : string :=
  "URL 1: http://example.com. URL 2: http://example.com. URL 3: <a href="
  +:+ String dq "http://example.com" +:+ String dq ">example</a>".

(** URLs that differ by case or by a final slash, and one that comes back
    with other punctuation after it. *)
Definition caseText : string :=
  "http://A.example/x, http://a.example/x. http://a.example/x/ and http://A.example/x!".

(** A text/plain message without header fields. *)
Definition plainMessage (body : string) : Reader :=
  {| message_Read :=
       Ok {| Entity_Header := noFields;
             Entity_Body := {| ReadAll := (body, None); NextParts := fun _ => [] |} |} |}.

(** What [Parse] makes of [plainMessage body] for a body without URLs and
    without white space around it. *)
Definition plainParsed (body : string) : ParsedEmail :=
  {| MessageID := EmptyString; From := []; To := []; Subject := EmptyString;
     Body_ := body; URLs := []; Header := noFields |}.

(** A message declared multipart/mixed without a boundary, whose read
    breaks off. *)
Definition noBoundaryMessage : message_Entity :=
  {| Entity_Header :=
       {| Header_ContentType := Ok ("multipart/mixed", {[ "charset" := "shift_jis" ]});
          Header_AddressList := fun _ => ([], None);
          Header_Subject := (EmptyString, None);
          Header_MessageID := (EmptyString, None) |};
     Entity_Body :=
       {| ReadAll := ("  --x see http://u.example/ " +:+ LF,
                      Some (LibError "unexpected EOF"));
          NextParts := fun _ => [] |} |}.

(** Bytes that are no UTF-8. *)
Definition notUTF8 : string := String (byte 255) (String (byte 254) "abc").

(** A message whose header block cannot be read. *)
Definition corruptedMessage : Reader :=
  {| message_Read := Err (LibError "message: malformed MIME header line") |}.

(* ===================================================================== *)
(** ** analyzer.go *)
(* ===================================================================== *)

(** [email.Header.Text(key)], and [provider.AnalyzeText] called with the
    prompt, the tool of [getAnalysisTool] and the tool choice auto. *)
Section Analyzer.

Variable Header_Text : mail_Header -> string -> string * option error.
Variable AnalyzeText : string -> result Judgment.

(** [buildPrompt]: the writes to [promptBuilder], in order. *)
Definition buildPrompt (email : ParsedEmail) : string :=
  let promptBuilder :=
    "Please analyze the following email and determine if it is safe, spam, or phishing."
    +:+ LF +:+ LF in
  let promptBuilder := promptBuilder +:+ "--- Email Headers ---" +:+ LF in
  let promptBuilder :=
    match From email with
    | addr :: _ => promptBuilder +:+ "From: " +:+ Address_String addr +:+ LF
    | [] => promptBuilder
    end in
  let promptBuilder :=
    match To email with
    | _ :: _ =>
        promptBuilder +:+ "To: "
        +:+ Join (map Address_String (To email)) ", " +:+ LF
    | [] => promptBuilder
    end in
  let promptBuilder := promptBuilder +:+ "Subject: " +:+ Subject email +:+ LF in
  let promptBuilder :=
    match Header_Text (Header email) "Return-Path" with
    | (returnPath, None) =>
        promptBuilder +:+ "Return-Path: " +:+ returnPath +:+ LF
    | (_, Some _) => promptBuilder
    end in
  let promptBuilder :=
    match Header_AddressList (Header email) "Reply-To" with
    | (replyTo, None) =>
        promptBuilder +:+ "Reply-To: "
        +:+ Join (map Address_String replyTo) ", " +:+ LF
    | (_, Some _) => promptBuilder
    end in
  let promptBuilder := promptBuilder +:+ LF +:+ "--- Email Body ---" +:+ LF in
  let body := Body_ email in
  let body :=
    if Nat.ltb 4000 (String.length body)
    then substring 0 4000 body +:+ LF +:+ "... (truncated)"
    else body in
  let promptBuilder := promptBuilder +:+ body in
  let promptBuilder :=
    promptBuilder +:+ LF +:+ LF +:+ "--- Extracted URLs---" +:+ LF in
  let promptBuilder :=
    match URLs email with
    | _ :: _ =>
        fold_left (fun builder u => builder +:+ (u +:+ LF)) (URLs email)
          promptBuilder
    | [] => promptBuilder +:+ "No URLs found." +:+ LF
    end in
  let promptBuilder :=
    promptBuilder +:+ LF +:+ "--- Analysis Instructions---" +:+ LF in
  promptBuilder
  +:+ "Based on all the information above, call the 'report_analysis_result' function with your conclusion.".

(** [Analyze] performs the analysis of a single email. *)
Definition EmailAnalyzer_Analyze (email : ParsedEmail) : result Judgment :=
  AnalyzeText (buildPrompt email).

End Analyzer.

(** [email] with another body. *)
Definition withBody (email : ParsedEmail) (body : string) : ParsedEmail :=
  {| MessageID := MessageID email; From := From email; To := To email;
     Subject := Subject email; Body_ := body; URLs := URLs email;
     Header := Header email |}.

(* ===================================================================== *)
(** ** config.go *)
(* ===================================================================== *)

(** [Config] holds the application configuration. *)
Record Config : Type := mkConfig {
  OpenAIAPIKey : string;
  OpenAIBaseURL : string;
  ModelName : string
}.

(** [os.Open(path)] as the content of the file or its error,
    [os.IsNotExist], [json.NewDecoder(file).Decode(&cfg)] on the
    configuration read so far, and [envconfig.Process] with the empty
    prefix. *)
Section ConfigLoad.

Variable os_Open : string -> result string.
Variable os_IsNotExist : error -> bool.
Variable json_Decode : string -> Config -> result Config.
Variable envconfig_Process : Config -> result Config.

(** [Load] loads configuration from a file, then overrides with environment
    variables. *)
Definition Load (path : string) : result Config :=
  let cfg := mkConfig EmptyString EmptyString EmptyString in
  let fromFile :=
    if negb (String.eqb path EmptyString) then
      match os_Open path with
      | Err err => if negb (os_IsNotExist err) then Err err else Ok cfg
      | Ok file => json_Decode file cfg
      end
    else Ok cfg in
  match fromFile with
  | Err err => Err err
  | Ok cfg =>
      match envconfig_Process cfg with
      | Err err => Err err
      | Ok cfg =>
          if String.eqb (ModelName cfg) EmptyString
          then Ok (mkConfig (OpenAIAPIKey cfg) (OpenAIBaseURL cfg) "gpt-4-turbo")
          else Ok cfg
      end
  end.

End ConfigLoad.

(* ===================================================================== *)
(** ** llm.go *)
(* ===================================================================== *)

(** [Message], with the [Function.Arguments] of each of its tool calls. *)
Record Message : Type := mkMessage {
  Role : string;
  Content : string;
  ToolCalls : list string
}.

Record APIError : Type := mkAPIError {
  Error_Message : string;
  Error_Type : string;
  Error_Code : string
}.

(** [APIResponse], with the [Message] of each choice. *)
Record APIResponse : Type := mkAPIResponse {
  Choices : list Message;
  Error : option APIError
}.

(** The pattern of line 163, whose dot matches every byte: the opening
    marker, the group of a greedy run of any bytes, the closing marker. *)
Definition toolRequestRegex : regex :=
  Lit "[TOOL_REQUEST]"
    (Cat (Group (Star true (fun _ => true)))
         (Lit "[END_TOOL_REQUEST" (Chr "]"))).

(** [re.FindStringSubmatch(s)], keeping [matches[1]] of the first match,
    for a pattern with one group that matches no empty string. *)
Definition FindStringSubmatch1 (r : regex) (s : string) : option string :=
  match findAll r s 0 with
  | [] => None
  | (_, group) :: _ => Some group
  end.

Section Provider.

(** [json.Unmarshal] into an [LLMToolCallResponse], of which the
    [Arguments] are kept, and into a [Judgment]. *)
Variable unmarshalToolCall : string -> result string.
Variable unmarshalJudgment : string -> result Judgment.

(** Lines 203-217 of [AnalyzeText]: the standard tool_calls field. *)
Definition standardToolCall (apiResponse : APIResponse) : result Judgment :=
  match Choices apiResponse with
  | choice :: _ =>
      match ToolCalls choice with
      | toolCallArgs :: _ =>
          match unmarshalJudgment toolCallArgs with
          | Err err =>
              Err (Wrapf "could not unmarshal tool call arguments from standard field" err)
          | Ok judgment => Ok judgment
          end
      | [] => Err (Errorf "API did not return a valid tool call in expected format")
      end
  | [] => Err (Errorf "API did not return a valid tool call in expected format")
  end.

(** Lines 153-217 of [AnalyzeText]: what is made of the decoded
    response. *)
Definition judgmentOf (apiResponse : APIResponse) : result Judgment :=
  match Error apiResponse with
  | Some apiError =>
      Err (Errorf ("API error: [" +:+ Error_Code apiError +:+ "] "
                   +:+ Error_Message apiError))
  | None =>
      match Choices apiResponse with
      | choice :: _ =>
          if negb (String.eqb (Content choice) EmptyString) then
            let content := Content choice in
            match FindStringSubmatch1 toolRequestRegex content with
            | Some group =>
                let toolCallArgs := TrimSpace group in
                match unmarshalToolCall toolCallArgs with
                | Err err =>
                    Err (Wrapf "could not unmarshal tool call response" err)
                | Ok arguments =>
                    match unmarshalJudgment arguments with
                    | Err err =>
                        Err (Wrapf "could not unmarshal judgment from tool call arguments" err)
                    | Ok judgment => Ok judgment
                    end
                end
            | None =>
                let trimmedContent := TrimSpace content in
                match unmarshalToolCall trimmedContent with
                | Ok arguments =>
                    match unmarshalJudgment arguments with
                    | Ok judgment => Ok judgment
                    | Err _ => standardToolCall apiResponse
                    end
                | Err _ => standardToolCall apiResponse
                end
            end
          else standardToolCall apiResponse
      | [] => standardToolCall apiResponse
      end
  end.

End Provider.

(** [apiResponse] with other tool calls in its first choice. *)
Definition withToolCalls (apiResponse : APIResponse) (calls : list string)
    : APIResponse :=
  {| Choices :=
       match Choices apiResponse with
       | choice :: rest =>
           {| Role := Role choice; Content := Content choice;
              ToolCalls := calls |} :: rest
       | [] => []
       end;
     Error := Error apiResponse |}.

(* ===================================================================== *)
(** ** Further vocabulary *)
(* ===================================================================== *)

(** Every byte of [s] satisfies [p]. *)
Fixpoint allBytes (p : ascii -> bool) (s : string) : bool :=
  match s with
  | EmptyString => true
  | String c s' => p c && allBytes p s'
  end.

(** The strings a pattern matches, whatever the search order. *)
Inductive matches : regex -> string -> Prop :=
| matches_Chr c : matches (Chr c) (String c EmptyString)
| matches_Class p c : p c = true -> matches (Class p) (String c EmptyString)
| matches_Cat r1 r2 s1 s2 :
    matches r1 s1 -> matches r2 s2 -> matches (Cat r1 r2) (s1 +:+ s2)
| matches_Quest_none r : matches (Quest r) EmptyString
| matches_Quest_some r s : matches r s -> matches (Quest r) s
| matches_Star greedy p s : allBytes p s = true -> matches (Star greedy p) s
| matches_Group r s : matches r s -> matches (Group r) s.

(** The pattern holds a capturing group. *)
Fixpoint hasGroup (r : regex) : bool :=
  match r with
  | Chr _ | Class _ | Star _ _ => false
  | Cat r1 r2 => hasGroup r1 || hasGroup r2
  | Quest r1 => hasGroup r1
  | Group _ => true
  end.

(** The first byte of [s] is in [cutset]. *)
Definition startsIn (s cutset : string) : bool :=
  match s with
  | EmptyString => false
  | String c _ => inCutset c cutset
  end.

(** [s] starts with [http://] or with [https://]. *)
Definition isWebURL (s : string) : bool :=
  HasPrefix s "http://" || HasPrefix s "https://".

(** White space of the free-text pattern, the double quote and the angle
    brackets. *)
Definition urlStop (c : ascii) : bool :=
  reSpace c || inCutset c (String dq "<>").

(** A child of a multipart entity that the loop passes over: an error of
    [NextPart], of [mime.ParseMediaType] or of [io.ReadAll], or a media type
    that is neither text/plain nor text/html. *)
Definition skippedPart (next : NextPart) : bool :=
  match next with
  | NextPartErr _ => true
  | NextPartOk part =>
      match Part_ContentType part, Part_ReadAll part with
      | Err _, _ => true
      | Ok _, (_, Some _) => true
      | Ok (partMediaType, _), (_, None) =>
          negb (String.eqb partMediaType "text/html"
                || String.eqb partMediaType "text/plain")
      end
  end.

(** [entity] with another body. *)
Definition withEntityBody (entity : message_Entity) (body : Body) : message_Entity :=
  {| Entity_Header := Entity_Header entity; Entity_Body := body |}.

(** The prefix of [cur] that stands before a line feed, if it holds a
    closing angle bracket: what a tag needs after its opening bracket. *)
Fixpoint closesOnLine (s : string) : bool :=
  match s with
  | EmptyString => false
  | String c s' =>
      if Ascii.eqb c ">" then true
      else if isByte c 10 then false
      else closesOnLine s'
  end.

(** A tag on one line starts somewhere in [s]. *)
Fixpoint hasLineTag (s : string) : bool :=
  match s with
  | EmptyString => false
  | String c s' => (Ascii.eqb c "<" && closesOnLine s') || hasLineTag s'
  end.

(** [s] starts with a white space rune of [unicode.IsSpace]. *)
Definition spaceAtHead (s : string) : bool :=
  match s with
  | EmptyString => false
  | String c1 t1 =>
      isSpace1 c1
      || match t1 with
         | EmptyString => false
         | String c2 t2 =>
             isSpace2 c1 c2
             || match t2 with
                | EmptyString => false
                | String c3 _ => isSpace3 c1 c2 c3
                end
         end
  end.

(** The same on the reversed string: the rune is read backwards. *)
Definition spaceAtHeadRev (s : string) : bool :=
  match s with
  | EmptyString => false
  | String c1 t1 =>
      isSpace1 c1
      || match t1 with
         | EmptyString => false
         | String c2 t2 =>
             isSpace2 c2 c1
             || match t2 with
                | EmptyString => false
                | String c3 _ => isSpace3 c3 c2 c1
                end
         end
  end.

(** [s] ends with a white space rune. *)
Definition spaceAtEnd (s : string) : bool := spaceAtHeadRev (String.rev s).

(** The record the mbox loop appends for [next], if it appends one. *)
Definition recordOf (next : NextMessage) : option AnalysisResult :=
  match next with
  | NextMessageErr _ => None
  | NextMessageOk rawMessage =>
      match Parse rawMessage with
      | Err _ => None
      | Ok parsedEmail =>
          match Analyze parsedEmail with
          | Err _ => None
          | Ok judgment => Some (resultOf parsedEmail judgment)
          end
      end
  end.

(** A text/plain message whose identifier comes with brackets and
    spaces around it. *)
Definition idMessage : Reader :=
  {| message_Read :=
       Ok {| Entity_Header :=
               {| Header_ContentType := Ok ("text/plain", ∅);
                  Header_AddressList := fun _ => ([], None);
                  Header_Subject := ("Hello", None);
                  Header_MessageID := (" <<id@example.com>> ", None) |};
             Entity_Body :=
               {| ReadAll := ("hello", None); NextParts := fun _ => [] |} |} |}.

(** A multipart/mixed entity with the given parts. *)
Definition mixedEntity (parts : list NextPart) : message_Entity :=
  {| Entity_Header :=
       {| Header_ContentType := Ok ("multipart/mixed", {[ "boundary" := "b" ]});
          Header_AddressList := fun _ => ([], None);
          Header_Subject := (EmptyString, None);
          Header_MessageID := (EmptyString, None) |};
     Entity_Body := {| ReadAll := (EmptyString, None); NextParts := fun _ => parts |} |}.

Definition plainPart (content : string) : NextPart :=
  NextPartOk {| Part_ContentType := Ok ("text/plain", ∅);
                Part_ReadAll := (content, None) |}.

(** An attachment: a part that is no text. *)
Definition pngPart : NextPart :=
  NextPartOk {| Part_ContentType := Ok ("image/png", ∅);
                Part_ReadAll := ("http://hidden.example/", None) |}.

(** A message that is one attachment, the read of which breaks off. *)
Definition pdfEntity : message_Entity :=
  {| Entity_Header :=
       {| Header_ContentType := Ok ("application/pdf", ∅);
          Header_AddressList := fun _ => ([], None);
          Header_Subject := (EmptyString, None);
          Header_MessageID := (EmptyString, None) |};
     Entity_Body :=
       {| ReadAll := ("%PDF", Some (LibError "unexpected EOF"));
          NextParts := fun _ => [] |} |}.

(** An entity whose Content-Type field cannot be parsed. *)
Definition unparsableTypeEntity : message_Entity :=
  leafEntity noFields (Err (LibError "mime: no media type"))
    ("<b>see</b> http://x.example/a.", None).

(** A parsed email with two URLs. *)
Definition linkParsed : ParsedEmail :=
  {| MessageID := EmptyString; From := []; To := []; Subject := "Links";
     Body_ := "see http://x.example/a and http://y.example/b";
     URLs := ["http://x.example/a"; "http://y.example/b"];
     Header := noFields |}.

(** A JSON reader for the examples: it accepts what starts with a brace,
    and gives it back. *)
Definition sampleUnmarshal (data : string) : result string :=
  if HasPrefix data "{" then Ok data
  else Err (LibError "invalid character looking for beginning of value").

(** A response whose content holds a tool request block that is no JSON,
    beside a standard tool call that is. *)
Definition blockResponse : APIResponse :=
  {| Choices :=
       [ {| Role := "assistant";
            Content := "Here: [TOOL_REQUEST] oops [END_TOOL_REQUEST] done";
            ToolCalls := ["{}"] |} ];
     Error := None |}.

(** A response with a standard tool call only. *)
Definition standardResponse : APIResponse :=
  {| Choices :=
       [ {| Role := "assistant"; Content := EmptyString; ToolCalls := ["{}"] |} ];
     Error := None |}.

(** [n] bytes [a] before [tail]. *)
Fixpoint filler (n : nat) (tail : string) : string :=
  match n with
  | O => tail
  | S n' => String "a" (filler n' tail)
  end.

(** A file system with one configuration file, a decoder that reads the
    whole file as the model name, and an environment that sets the key. *)
Definition sampleOpen (path : string) : result string :=
  if String.eqb path "config.json" then Ok "local-model"
  else if String.eqb path "secret.json" then Err (LibError "permission denied")
  else Err (LibError "no such file or directory").

Definition sampleIsNotExist (err : error) : bool :=
  match err with
  | LibError msg => String.eqb msg "no such file or directory"
  | _ => false
  end.

Definition sampleDecode (file : string) (cfg : Config) : result Config :=
  Ok (mkConfig (OpenAIAPIKey cfg) (OpenAIBaseURL cfg) file).

Definition sampleEnv (cfg : Config) : result Config :=
  Ok (mkConfig "key" (OpenAIBaseURL cfg) (ModelName cfg)).

(* ===================================================================== *)
(** ** Proof steps *)
(* ===================================================================== *)

(** Takes a match of a pattern apart, piece by piece. *)
Ltac inv_matches :=
  repeat match goal with
  | H : matches (Chr _) _ |- _ => inversion H; subst; clear H
  | H : matches (Class _) _ |- _ => inversion H; subst; clear H
  | H : matches (Cat _ _) _ |- _ => inversion H; subst; clear H
  | H : matches (Star _ _) _ |- _ => inversion H; subst; clear H
  | H : matches (Group _) _ |- _ => inversion H; subst; clear H
  end.

(** Settles the white space tests of the hypothesis [H], each in turn. *)
Ltac case_spaces H :=
  repeat match type of H with
  | context [isSpace1 ?c] => destruct (isSpace1 c); [discriminate H|]
  | context [isSpace2 ?c ?d] => destruct (isSpace2 c d); [discriminate H|]
  | context [isSpace3 ?c ?d ?e] => destruct (isSpace3 c d e); [discriminate H|]
  end.

(* ===================================================================== *)
(** ** Properties of the string helpers *)
(* ===================================================================== *)

Lemma append_cons (x : ascii) (a b : string) :
  String x a +:+ b = String x (a +:+ b).
Proof. reflexivity. Qed.

Lemma append_nil (b : string) : EmptyString +:+ b = b.
Proof. reflexivity. Qed.

Lemma append_assoc (a b c : string) : (a +:+ b) +:+ c = a +:+ (b +:+ c).
Proof.
  induction a as [|x a IH]; [reflexivity|].
  rewrite !append_cons. now rewrite IH.
Qed.

Lemma append_empty_r (a : string) : a +:+ EmptyString = a.
Proof.
  induction a as [|x a IH]; [reflexivity|].
  rewrite append_cons. now rewrite IH.
Qed.

Lemma TrimRight_cons (c : ascii) (s cutset : string) :
  TrimRight (String c s) cutset =
    match TrimRight s cutset with
    | EmptyString => if inCutset c cutset then EmptyString else String c EmptyString
    | t => String c t
    end.
Proof. reflexivity. Qed.

(** Trimming once is enough. *)
Lemma TrimRight_idempotent (s cutset : string) :
  TrimRight (TrimRight s cutset) cutset = TrimRight s cutset.
Proof.
  induction s as [|c s IH]; [reflexivity|].
  rewrite TrimRight_cons.
  destruct (TrimRight s cutset) as [|d t] eqn:E.
  - destruct (inCutset c cutset) eqn:Ec; [reflexivity|].
    simpl. now rewrite Ec.
  - rewrite TrimRight_cons, IH. reflexivity.
Qed.

(** A trimmed string does not end in a byte of the cutset. *)
Lemma TrimRight_endsIn (s cutset : string) :
  endsIn (TrimRight s cutset) cutset = false.
Proof.
  induction s as [|c s IH]; [reflexivity|].
  rewrite TrimRight_cons.
  destruct (TrimRight s cutset) as [|d t] eqn:E.
  - destruct (inCutset c cutset) eqn:Ec; [reflexivity|].
    simpl. exact Ec.
  - exact IH.
Qed.

(** A string that does not end in a byte of the cutset is left as it is. *)
Lemma TrimRight_fixed (s cutset : string) :
  endsIn s cutset = false -> TrimRight s cutset = s.
Proof.
  induction s as [|c s IH]; [reflexivity|].
  intros H. rewrite TrimRight_cons.
  destruct s as [|d t].
  - simpl in *. now rewrite H.
  - rewrite IH by exact H. reflexivity.
Qed.

(* ===================================================================== *)
(** ** The deduplication loop *)
(* ===================================================================== *)

Lemma dedupInv_init : dedupInv (∅, []).
Proof.
  split; [|constructor].
  intros u. simpl. rewrite lookup_empty. simpl. split; [discriminate|].
  intros H. inversion H.
Qed.

Lemma dedupLoop_cons st r rest :
  dedupLoop st (r :: rest) =
    if negb (default false (st.1 !! trim r))
    then dedupLoop (<[trim r := true]> st.1, st.2 ++ [trim r]) rest
    else dedupLoop st rest.
Proof. reflexivity. Qed.

Lemma dedupLoop_app st l1 l2 :
  dedupLoop st (l1 ++ l2) = dedupLoop (dedupLoop st l1) l2.
Proof.
  revert st. induction l1 as [|r l1 IH]; intros st; [reflexivity|].
  simpl app. rewrite !dedupLoop_cons.
  destruct (negb _); apply IH.
Qed.

Lemma dedupInv_step st r :
  dedupInv st -> trim r ∉ st.2 ->
  dedupInv (<[trim r := true]> st.1, st.2 ++ [trim r]).
Proof.
  intros [Hm Hn] Hfresh. split; simpl.
  - intros u. rewrite elem_of_app, list_elem_of_singleton.
    destruct (decide (trim r = u)) as [->|Hne].
    + rewrite lookup_insert_eq. simpl. tauto.
    + rewrite lookup_insert_ne by exact Hne. rewrite Hm.
      split; [tauto|]. intros [H|H]; [exact H | congruence].
  - apply NoDup_app. split; [exact Hn|]. split; [|apply NoDup_singleton].
    intros x Hx Hx'. apply list_elem_of_singleton in Hx'. subst x. tauto.
Qed.

Lemma dedupInv_fresh st u :
  dedupInv st -> negb (default false (st.1 !! u)) = true <-> u ∉ st.2.
Proof.
  intros [Hm _]. rewrite negb_true_iff, <- Hm.
  destruct (default false (st.1 !! u)); split; congruence.
Qed.

Lemma dedupLoop_inv st l : dedupInv st -> dedupInv (dedupLoop st l).
Proof.
  revert st. induction l as [|r l IH]; intros st Hst; [exact Hst|].
  rewrite dedupLoop_cons.
  destruct (negb _) eqn:E.
  - apply IH, dedupInv_step; [exact Hst|]. now apply (dedupInv_fresh st).
  - now apply IH.
Qed.

(** The slice only grows at its end. *)
Lemma dedupLoop_prefix st l : st.2 `prefix_of` (dedupLoop st l).2.
Proof.
  revert st. induction l as [|r l IH]; intros st; [reflexivity|].
  rewrite dedupLoop_cons.
  destruct (negb _).
  - etransitivity; [|apply IH]. simpl. now apply prefix_app_r.
  - apply IH.
Qed.

Lemma dedupLoop_elem st l u :
  dedupInv st ->
  u ∈ (dedupLoop st l).2 <-> u ∈ st.2 \/ u ∈ map trim l.
Proof.
  revert st. induction l as [|r l IH]; intros st Hst.
  - simpl. split; [tauto|]. intros [H|H]; [exact H | inversion H].
  - rewrite dedupLoop_cons. simpl map. rewrite elem_of_cons.
    destruct (negb _) eqn:E.
    + rewrite IH.
      * simpl. rewrite elem_of_app, list_elem_of_singleton. tauto.
      * apply dedupInv_step; [exact Hst|]. now apply (dedupInv_fresh st).
    + rewrite IH by exact Hst.
      split; [tauto|]. intros [H|[->|H]]; [tauto| |tauto].
      left. apply Hst. apply negb_false_iff in E. exact E.
Qed.

(** A URL seen for the first time is appended; one seen before is dropped. *)
Lemma dedupLoop_snoc st l r :
  dedupInv st ->
  (dedupLoop st (l ++ [r])).2 =
    if bool_decide (trim r ∈ (dedupLoop st l).2)
    then (dedupLoop st l).2
    else (dedupLoop st l).2 ++ [trim r].
Proof.
  intros Hst. rewrite dedupLoop_app.
  pose proof (dedupLoop_inv st l Hst) as Hinv.
  rewrite dedupLoop_cons.
  destruct (negb _) eqn:E.
  - apply (dedupInv_fresh _ _ Hinv) in E.
    rewrite bool_decide_eq_false_2 by exact E. reflexivity.
  - apply negb_false_iff in E. apply Hinv in E.
    rewrite bool_decide_eq_true_2 by exact E. reflexivity.
Qed.

(** A duplicate-free list of trimmed URLs goes through the loop
    unchanged. *)
Lemma dedupLoop_fixed st l :
  dedupInv st -> NoDup (st.2 ++ l) -> Forall (fun u => trim u = u) l ->
  (dedupLoop st l).2 = st.2 ++ l.
Proof.
  revert st. induction l as [|r l IH]; intros st Hst Hnd Hfix.
  - simpl. now rewrite app_nil_r.
  - inversion Hfix as [|? ? Hr Hl]; subst.
    rewrite dedupLoop_cons, Hr.
    assert (Hfresh : r ∉ st.2).
    { apply NoDup_app in Hnd as (_ & Hd & _). intros Hin.
      apply (Hd r Hin). left. }
    assert (E : negb (default false (st.1 !! r)) = true)
      by now apply (dedupInv_fresh st).
    rewrite E. rewrite IH.
    + simpl. now rewrite <- app_assoc.
    + rewrite <- Hr at 1 2. apply dedupInv_step; [exact Hst | now rewrite Hr].
    + simpl. now rewrite <- app_assoc.
    + exact Hl.
Qed.

Lemma uniqueURLs_NoDup l : NoDup (uniqueURLs l).
Proof. apply (dedupLoop_inv (∅, []) l dedupInv_init). Qed.

Lemma uniqueURLs_elem l u : u ∈ uniqueURLs l <-> u ∈ map trim l.
Proof.
  unfold uniqueURLs. rewrite dedupLoop_elem by apply dedupInv_init.
  simpl. split; [|tauto]. intros [H|H]; [inversion H | exact H].
Qed.

Lemma uniqueURLs_trimmed l : Forall (fun u => trim u = u) (uniqueURLs l).
Proof.
  apply Forall_forall. intros u Hu. apply uniqueURLs_elem in Hu.
  apply list_elem_of_fmap in Hu as (r & -> & _).
  apply TrimRight_idempotent.
Qed.

Lemma uniqueURLs_idempotent l : uniqueURLs (uniqueURLs l) = uniqueURLs l.
Proof.
  unfold uniqueURLs at 1.
  rewrite dedupLoop_fixed.
  - reflexivity.
  - apply dedupInv_init.
  - apply uniqueURLs_NoDup.
  - apply uniqueURLs_trimmed.
Qed.

Lemma uniqueURLs_take_prefix l k : uniqueURLs (take k l) `prefix_of` uniqueURLs l.
Proof.
  unfold uniqueURLs. rewrite <- (take_drop k l) at 2.
  rewrite dedupLoop_app. apply dedupLoop_prefix.
Qed.

Lemma uniqueURLs_snoc l r :
  uniqueURLs (l ++ [r]) =
    if bool_decide (trim r ∈ map trim l)
    then uniqueURLs l else uniqueURLs l ++ [trim r].
Proof.
  unfold uniqueURLs. rewrite dedupLoop_snoc by apply dedupInv_init.
  fold (uniqueURLs l).
  destruct (bool_decide (trim r ∈ uniqueURLs l)) eqn:E.
  - apply bool_decide_eq_true_1, uniqueURLs_elem in E.
    now rewrite bool_decide_eq_true_2.
  - apply bool_decide_eq_false_1 in E.
    rewrite bool_decide_eq_false_2; [reflexivity|].
    intros H. apply E. now apply uniqueURLs_elem.
Qed.

(** The URL first seen at position [k] stands right after the URLs seen
    before it. *)
Lemma uniqueURLs_first_seen l k r :
  l !! k = Some r -> trim r ∉ map trim (take k l) ->
  exists i, uniqueURLs l !! i = Some (trim r)
            /\ take i (uniqueURLs l) = uniqueURLs (take k l).
Proof.
  intros Hk Hfresh.
  exists (length (uniqueURLs (take k l))).
  pose proof (uniqueURLs_take_prefix l (S k)) as [rest Hrest].
  rewrite (take_S_r l k r Hk), uniqueURLs_snoc in Hrest.
  rewrite bool_decide_eq_false_2 in Hrest by exact Hfresh.
  rewrite Hrest, <- app_assoc. split.
  - rewrite lookup_app_r by reflexivity.
    now rewrite Nat.sub_diag.
  - now rewrite take_app_length.
Qed.

(* ===================================================================== *)
(** ** The walk over the parts *)
(* ===================================================================== *)

Lemma scanText_urls mediaType text urls :
  scanText mediaType text urls =
    (urls ++ leafURLs (mediaType, text), leafText (mediaType, text)).
Proof.
  unfold scanText, leafURLs, leafText. simpl.
  now rewrite <- app_assoc.
Qed.

Lemma partStep_textChild st next :
  partStep st next =
    match textChild next with
    | Some leaf => (st.1 +:+ leafText leaf +:+ LF, st.2 ++ leafURLs leaf)
    | None => st
    end.
Proof.
  unfold partStep, textChild. destruct next as [err|part]; [reflexivity|].
  destruct (Part_ContentType part) as [[mt ps]|err]; [|reflexivity].
  destruct (Part_ReadAll part) as [content [err|]]; [reflexivity|].
  destruct (_ || _); [|reflexivity].
  rewrite scanText_urls. reflexivity.
Qed.

Lemma fold_partStep parts st :
  fold_left partStep parts st =
    (st.1 +:+ joinLeaves (omap textChild parts),
     st.2 ++ flat_map leafURLs (omap textChild parts)).
Proof.
  revert st. induction parts as [|next parts IH]; intros [b us].
  - simpl. now rewrite append_empty_r, app_nil_r.
  - simpl fold_left. rewrite IH, partStep_textChild. simpl omap.
    destruct (textChild next) as [leaf|]; [|reflexivity].
    simpl. now rewrite !append_assoc, <- app_assoc.
Qed.

Lemma not_text_of_multipart mediaType :
  HasPrefix mediaType "multipart/" = true ->
  String.eqb mediaType "text/html" || String.eqb mediaType "text/plain" = false.
Proof.
  intros H.
  destruct (String.eqb_spec mediaType "text/html") as [->|_]; [discriminate H|].
  destruct (String.eqb_spec mediaType "text/plain") as [->|_]; [discriminate H|].
  reflexivity.
Qed.

Lemma collect_multipart entity mediaType params :
  Header_ContentType (Entity_Header entity) = Ok (mediaType, params) ->
  HasPrefix mediaType "multipart/" = true ->
  collect entity =
    if String.eqb (index params "boundary") EmptyString
    then Ok ((ReadAll (Entity_Body entity)).1, [])
    else Ok (fold_left partStep
               (NextParts (Entity_Body entity) (index params "boundary"))
               (EmptyString, [])).
Proof. intros Hct Hmp. unfold collect. now rewrite Hct, Hmp. Qed.

(** C1, as amended.  For a multipart entity with a boundary, the body is
    the text of the direct children that are read without error and are
    text/plain or text/html, each followed by a line feed, trimmed once;
    the URL list is the deduplicated list of their URLs in order.  A child
    that is itself multipart is no such child: nothing of it reaches the
    body or the URL list. *)
Theorem multipart_walks_direct_text_children entity mediaType params :
  Header_ContentType (Entity_Header entity) = Ok (mediaType, params) ->
  HasPrefix mediaType "multipart/" = true ->
  index params "boundary" <> EmptyString ->
  extractBodyAndURLs entity =
    Ok (TrimSpace
          (joinLeaves
             (omap textChild
                (NextParts (Entity_Body entity) (index params "boundary")))),
        uniqueURLs
          (flat_map leafURLs
             (omap textChild
                (NextParts (Entity_Body entity) (index params "boundary")))))
  /\ (forall part partMediaType partParams,
        Part_ContentType part = Ok (partMediaType, partParams) ->
        HasPrefix partMediaType "multipart/" = true ->
        textChild (NextPartOk part) = None).
Proof.
  intros Hct Hmp Hb. split.
  - unfold extractBodyAndURLs.
    rewrite (collect_multipart _ _ _ Hct Hmp).
    apply String.eqb_neq in Hb. rewrite Hb, fold_partStep. reflexivity.
  - intros part mt ps Hp Hm. unfold textChild. rewrite Hp.
    destruct (Part_ReadAll part) as [content [err|]]; [reflexivity|].
    now rewrite (not_text_of_multipart _ Hm).
Qed.

(** C7.  A multipart entity whose boundary parameter is missing or empty
    gives its whole payload, trimmed once like every body, and no URL;
    neither the charset parameter nor an error of the read changes this,
    and [Parse] returns no error. *)
Theorem multipart_without_boundary_is_opaque entity mediaType params :
  Header_ContentType (Entity_Header entity) = Ok (mediaType, params) ->
  HasPrefix mediaType "multipart/" = true ->
  params !! "boundary" = None \/ params !! "boundary" = Some EmptyString ->
  extractBodyAndURLs entity =
    Ok (TrimSpace (ReadAll (Entity_Body entity)).1, [])
  /\ (forall r, message_Read r = Ok entity -> isOk (Parse r) = true).
Proof.
  intros Hct Hmp Hb.
  assert (Hi : index params "boundary" = EmptyString).
  { unfold index. destruct Hb as [-> | ->]; reflexivity. }
  assert (He : extractBodyAndURLs entity =
               Ok (TrimSpace (ReadAll (Entity_Body entity)).1, [])).
  { unfold extractBodyAndURLs.
    rewrite (collect_multipart _ _ _ Hct Hmp), Hi. reflexivity. }
  split; [exact He|].
  intros r Hr. unfold Parse. rewrite Hr, He. reflexivity.
Qed.

(* ===================================================================== *)
(** ** The declared charset *)
(* ===================================================================== *)

Lemma index_delete_charset params :
  index (delete "charset" params) "charset" = EmptyString.
Proof. unfold index. now rewrite lookup_delete_eq. Qed.

Lemma index_delete_boundary params :
  index (delete "charset" params) "boundary" = index params "boundary".
Proof. unfold index. now rewrite lookup_delete_ne. Qed.

Lemma decodeDeclared_undeclared content :
  decodeDeclared content EmptyString = content.
Proof. reflexivity. Qed.

(** An entity whose declared charset leaves the content as it is is
    processed like the same entity without the charset parameter. *)
Lemma extract_without_charset entity mediaType params :
  Header_ContentType (Entity_Header entity) = Ok (mediaType, params) ->
  decodeDeclared (ReadAll (Entity_Body entity)).1 (index params "charset")
    = (ReadAll (Entity_Body entity)).1 ->
  extractBodyAndURLs entity =
    extractBodyAndURLs
      (withContentType entity (Ok (mediaType, delete "charset" params))).
Proof.
  intros Hct Hd. unfold extractBodyAndURLs, collect. simpl. rewrite Hct.
  rewrite index_delete_boundary, index_delete_charset.
  destruct (HasPrefix mediaType "multipart/"); [reflexivity|].
  destruct (_ || _); [|reflexivity].
  destruct (ReadAll (Entity_Body entity)) as [content [err|]]; [reflexivity|].
  simpl in Hd. now rewrite Hd, decodeDeclared_undeclared.
Qed.

Lemma partStep_without_charset st part mediaType params :
  Part_ContentType part = Ok (mediaType, params) ->
  decodeDeclared (Part_ReadAll part).1 (index params "charset")
    = (Part_ReadAll part).1 ->
  partStep st (NextPartOk part) =
    partStep st
      (NextPartOk
         (partWithContentType part (Ok (mediaType, delete "charset" params)))).
Proof.
  intros Hct Hd. unfold partStep. simpl. rewrite Hct.
  destruct (Part_ReadAll part) as [content [err|]]; [reflexivity|].
  simpl in Hd.
  now rewrite index_delete_charset, Hd, decodeDeclared_undeclared.
Qed.

(** What [extractBodyAndURLs] returns an error on. *)
Lemma extract_isOk entity :
  isOk (extractBodyAndURLs entity) = negb (textBodyUnreadable entity).
Proof.
  unfold extractBodyAndURLs, collect, textBodyUnreadable, mediaTypeOf.
  destruct (Header_ContentType (Entity_Header entity)) as [[mt ps]|err]; simpl.
  - destruct (HasPrefix mt "multipart/"); simpl.
    + destruct (String.eqb (index ps "boundary") EmptyString); [reflexivity|].
      now destruct (fold_left _ _ _).
    + destruct (_ || _); simpl; [|reflexivity].
      destruct (ReadAll (Entity_Body entity)) as [content [err|]]; reflexivity.
  - destruct (ReadAll (Entity_Body entity)) as [content [err'|]]; reflexivity.
Qed.

Lemma unsupported_label label :
  label ∉ supportedLabels ->
  String.eqb label "iso-2022-jp" = false
  /\ String.eqb label "shift_jis" = false
  /\ String.eqb label "shift-jis" = false
  /\ String.eqb label "euc-jp" = false
  /\ String.eqb label "euc_jp" = false
  /\ String.eqb label "utf-8" = false.
Proof.
  intros H. repeat split; apply String.eqb_neq; intros ->; apply H;
    unfold supportedLabels, decoderTable; simpl;
    repeat (first [apply list_elem_of_here | apply list_elem_of_further]).
Qed.

Lemma decodeCharset_fails content charset :
  decodeFails content charset -> isOk (decodeCharset content charset) = false.
Proof.
  intros [H | (decoder & err & Hin & Ht)]; unfold decodeCharset.
  - destruct (unsupported_label _ H) as (-> & -> & -> & -> & -> & ->).
    reflexivity.
  - unfold decoderTable in Hin.
    repeat (apply elem_of_cons in Hin as [Hin | Hin];
            [injection Hin as -> ->; simpl; rewrite Ht; reflexivity|]).
    inversion Hin.
Qed.

Lemma decodeDeclared_fails content charset :
  isOk (decodeCharset content charset) = false ->
  decodeDeclared content charset = content.
Proof.
  intros H. unfold decodeDeclared.
  destruct (String.eqb charset EmptyString); [reflexivity|].
  destruct (decodeCharset content charset); [discriminate H | reflexivity].
Qed.

(** C2.  When the lower-cased label is not in the switch of
    [decodeCharset], or the decoder of its case returns an error,
    [decodeCharset] returns an error, the content stays the original bytes,
    and the entity or part is processed exactly as if it declared no
    charset: no error comes from the charset, and an entity whose body is
    read without error gives a result. *)
Theorem charset_failure_passes_through content charset :
  decodeFails content charset ->
  isOk (decodeCharset content charset) = false
  /\ decodeDeclared content charset = content
  /\ (forall entity mediaType params,
        Header_ContentType (Entity_Header entity) = Ok (mediaType, params) ->
        index params "charset" = charset ->
        ReadAll (Entity_Body entity) = (content, None) ->
        extractBodyAndURLs entity =
          extractBodyAndURLs
            (withContentType entity (Ok (mediaType, delete "charset" params)))
        /\ isOk (extractBodyAndURLs entity) = true)
  /\ (forall st part mediaType params,
        Part_ContentType part = Ok (mediaType, params) ->
        index params "charset" = charset ->
        Part_ReadAll part = (content, None) ->
        partStep st (NextPartOk part) =
          partStep st
            (NextPartOk
               (partWithContentType part
                  (Ok (mediaType, delete "charset" params))))).
Proof.
  intros Hf.
  pose proof (decodeCharset_fails _ _ Hf) as He.
  pose proof (decodeDeclared_fails _ _ He) as Hd.
  split; [exact He|]. split; [exact Hd|]. split.
  - intros entity mt ps Hct Hc Hr. split.
    + apply (extract_without_charset _ _ _ Hct). now rewrite Hc, Hr.
    + rewrite extract_isOk. unfold textBodyUnreadable. rewrite Hr. simpl.
      now rewrite andb_false_r.
  - intros st part mt ps Hct Hc Hr.
    apply (partStep_without_charset _ _ _ _ Hct). now rewrite Hc, Hr.
Qed.

(** C3.  With no declared charset, or one whose lower-cased label is
    utf-8, the content is returned byte for byte, whatever the bytes are,
    and the entity or part is processed as if it declared no charset. *)
Theorem utf8_or_undeclared_is_identity content charset :
  charset = EmptyString \/ ToLower charset = "utf-8" ->
  decodeDeclared content charset = content
  /\ (ToLower charset = "utf-8" -> decodeCharset content charset = Ok content)
  /\ (forall entity mediaType params,
        Header_ContentType (Entity_Header entity) = Ok (mediaType, params) ->
        index params "charset" = charset ->
        ReadAll (Entity_Body entity) = (content, None) ->
        extractBodyAndURLs entity =
          extractBodyAndURLs
            (withContentType entity (Ok (mediaType, delete "charset" params))))
  /\ (forall st part mediaType params,
        Part_ContentType part = Ok (mediaType, params) ->
        index params "charset" = charset ->
        Part_ReadAll part = (content, None) ->
        partStep st (NextPartOk part) =
          partStep st
            (NextPartOk
               (partWithContentType part
                  (Ok (mediaType, delete "charset" params))))).
Proof.
  intros H.
  assert (Hu : ToLower charset = "utf-8" -> decodeCharset content charset = Ok content).
  { intros E. unfold decodeCharset. rewrite E. reflexivity. }
  assert (Hd : decodeDeclared content charset = content).
  { unfold decodeDeclared. destruct H as [-> | E]; [reflexivity|].
    rewrite (Hu E). now destruct (String.eqb charset EmptyString). }
  split; [exact Hd|]. split; [exact Hu|]. split.
  - intros entity mt ps Hct Hc Hr.
    apply (extract_without_charset _ _ _ Hct). now rewrite Hc, Hr.
  - intros st part mt ps Hct Hc Hr.
    apply (partStep_without_charset _ _ _ _ Hct). now rewrite Hc, Hr.
Qed.

(* ===================================================================== *)
(** ** The URL list *)
(* ===================================================================== *)

Lemma extract_collect entity body urls :
  extractBodyAndURLs entity = Ok (body, urls) ->
  exists bodyBuilder raw,
    collect entity = Ok (bodyBuilder, raw)
    /\ body = TrimSpace bodyBuilder /\ urls = uniqueURLs raw.
Proof.
  unfold extractBodyAndURLs.
  destruct (collect entity) as [[bodyBuilder raw]|err]; [|discriminate].
  intros [= <- <-]. now exists bodyBuilder, raw.
Qed.

Lemma text_is_not_multipart mediaType :
  String.eqb mediaType "text/plain" || String.eqb mediaType "text/html" = true ->
  HasPrefix mediaType "multipart/" = false.
Proof.
  destruct (String.eqb_spec mediaType "text/plain") as [->|_]; [reflexivity|].
  destruct (String.eqb_spec mediaType "text/html") as [->|_]; [reflexivity|].
  discriminate.
Qed.

(** A text entity that is read without error: both passes run on its
    decoded content, the free-text pass after the tags are stripped. *)
Lemma collect_text_leaf h mediaType params content :
  String.eqb mediaType "text/plain" || String.eqb mediaType "text/html" = true ->
  collect (leafEntity h (Ok (mediaType, params)) (content, None)) =
    Ok (leafText (mediaType, decodeDeclared content (index params "charset")),
        FindAllStringSubmatch1 hrefRegex
          (decodeDeclared content (index params "charset"))
        ++ FindAllString urlRegex
             (leafText (mediaType, decodeDeclared content (index params "charset")))).
Proof.
  intros Ht. unfold collect. simpl.
  rewrite (text_is_not_multipart _ Ht), Ht. reflexivity.
Qed.

(** C4.  The URL list has no duplicates under string equality of the
    trimmed URLs; it holds exactly the trimmed URLs that were found; and the
    URL first seen at position [k] of the found sequence stands right after
    the URLs seen before [k]. *)
Theorem url_list_unique_in_first_seen_order entity body urls :
  extractBodyAndURLs entity = Ok (body, urls) ->
  exists bodyBuilder raw,
    collect entity = Ok (bodyBuilder, raw)
    /\ NoDup urls
    /\ (forall u, u ∈ urls <-> u ∈ map (fun r => TrimRight r punctuation) raw)
    /\ (forall k r,
          raw !! k = Some r ->
          TrimRight r punctuation
            ∉ map (fun r => TrimRight r punctuation) (take k raw) ->
          exists i, urls !! i = Some (TrimRight r punctuation)
                    /\ take i urls = uniqueURLs (take k raw)).
Proof.
  intros H. apply extract_collect in H as (bodyBuilder & raw & Hc & _ & ->).
  exists bodyBuilder, raw. split; [exact Hc|]. split; [apply uniqueURLs_NoDup|].
  split; [apply uniqueURLs_elem|]. apply uniqueURLs_first_seen.
Qed.

(** C5.  Every URL found by either pass is trimmed of its trailing run of
    the punctuation bytes before it is compared: no URL of the list ends in
    one of them, each is the trim of a found URL and the trim of each found
    URL is in the list; both passes feed the same loop; and the text of
    TestExtractBodyAndURLs_URLTrimming gives the two URLs without their
    comma and their parenthesis and full stop. *)
Theorem trailing_punctuation_is_stripped :
  (forall entity body urls,
     extractBodyAndURLs entity = Ok (body, urls) ->
     exists bodyBuilder raw,
       collect entity = Ok (bodyBuilder, raw)
       /\ urls = uniqueURLs raw
       /\ (forall r, r ∈ raw -> TrimRight r punctuation ∈ urls)
       /\ Forall (fun u => endsIn u punctuation = false
                           /\ exists r, r ∈ raw /\ u = TrimRight r punctuation)
                 urls)
  /\ (forall h mediaType params content,
        String.eqb mediaType "text/plain" || String.eqb mediaType "text/html" = true ->
        exists bodyBuilder,
          collect (leafEntity h (Ok (mediaType, params)) (content, None)) =
            Ok (bodyBuilder,
                FindAllStringSubmatch1 hrefRegex
                  (decodeDeclared content (index params "charset"))
                ++ FindAllString urlRegex bodyBuilder))
  /\ (forall h,
        extractBodyAndURLs (leafEntity h (Ok ("text/plain", ∅)) (trimmingText, None)) =
          Ok (trimmingText, ["http://example.com/page"; "http://google.com"])).
Proof.
  split; [|split].
  - intros entity body urls H.
    apply extract_collect in H as (bodyBuilder & raw & Hc & _ & ->).
    exists bodyBuilder, raw. split; [exact Hc|]. split; [reflexivity|]. split.
    + intros r Hr. apply uniqueURLs_elem. apply list_elem_of_fmap. now exists r.
    + apply Forall_forall. intros u Hu. apply uniqueURLs_elem in Hu.
      apply list_elem_of_fmap in Hu as (r & -> & Hr). split.
      * apply TrimRight_endsIn.
      * now exists r.
  - intros h mediaType params content Ht. eexists.
    apply (collect_text_leaf h mediaType params content Ht).
  - intros h. vm_compute. reflexivity.
Qed.

(** C6, as amended.  The trim and deduplication of lines 178-186 leave an
    already trimmed and deduplicated list as it is: so it is for any list
    they produced, for the URL list of every entity and for every
    harvest. *)
Theorem trim_and_dedup_is_idempotent :
  (forall raw, uniqueURLs (uniqueURLs raw) = uniqueURLs raw)
  /\ (forall entity body urls,
        extractBodyAndURLs entity = Ok (body, urls) -> uniqueURLs urls = urls)
  /\ (forall isHTML text,
        uniqueURLs (harvest isHTML text) = harvest isHTML text).
Proof.
  split; [exact uniqueURLs_idempotent|]. split.
  - intros entity body urls H.
    apply extract_collect in H as (bodyBuilder & raw & _ & _ & ->).
    apply uniqueURLs_idempotent.
  - intros isHTML text. apply uniqueURLs_idempotent.
Qed.

(* ===================================================================== *)
(** ** HTML parts *)
(* ===================================================================== *)

(** The body and URL list of a text/html entity: the href pass reads the
    text with its tags, the free-text pass and the body the text with each
    match of the tag pattern replaced by one space. *)
Lemma html_entity_is_stripped h params content :
  extractBodyAndURLs (leafEntity h (Ok ("text/html", params)) (content, None)) =
    Ok (TrimSpace
          (ReplaceAllString tagRegex
             (decodeDeclared content (index params "charset")) " "),
        uniqueURLs
          (FindAllStringSubmatch1 hrefRegex
             (decodeDeclared content (index params "charset"))
           ++ FindAllString urlRegex
                (ReplaceAllString tagRegex
                   (decodeDeclared content (index params "charset")) " "))).
Proof.
  unfold extractBodyAndURLs.
  rewrite (collect_text_leaf h "text/html" params content eq_refl).
  reflexivity.
Qed.

(** The HTML Email case of TestParse. *)
Lemma html_example h :
  exists body,
    extractBodyAndURLs (leafEntity h (Ok ("text/html", ∅)) (htmlText, None)) =
      Ok (body, ["https://example.org"])
    /\ body = "Hello  This is a  link ."
    /\ normalize body = "Hello This is a link .".
Proof. eexists. split; [vm_compute; reflexivity|]. split; reflexivity. Qed.

(** C8, where the code departs from it.  A tag that holds a line feed is
    no match of the tag pattern, whose dot matches no line feed: the tag
    stays in the body, and the free-text pass reads the address inside
    it. *)
Theorem tag_over_two_lines_is_kept h :
  extractBodyAndURLs (leafEntity h (Ok ("text/html", ∅)) (twoLineTag, None)) =
    Ok ("<a" +:+ LF +:+ "href=" +:+ String dq "http://x.example" +:+ String dq ">link",
        ["http://x.example"])
  /\ ReplaceAllString tagRegex twoLineTag " " =
       "<a" +:+ LF +:+ "href=" +:+ String dq "http://x.example" +:+ String dq ">link "
  /\ FindAllString urlRegex (ReplaceAllString tagRegex twoLineTag " ") =
       ["http://x.example"].
Proof. split; [|split]; vm_compute; reflexivity. Qed.

(* ===================================================================== *)
(** ** Parse and the mbox loop *)
(* ===================================================================== *)

(** C10.  [Parse] returns an error exactly when [message.Read] does, or
    when the entity is a text part that is not multipart and the read of
    its body fails.  In every other case it returns a record whose fields
    are the values the header calls return, their errors dropped: empty
    when the call returns its empty value with the error. *)
Theorem Parse_fails_only_on_unreadable_input r :
  (isOk (Parse r) = false <->
     isOk (message_Read r) = false
     \/ exists entity,
          message_Read r = Ok entity /\ textBodyUnreadable entity = true)
  /\ (forall entity,
        message_Read r = Ok entity ->
        textBodyUnreadable entity = false ->
        exists body urls,
          extractBodyAndURLs entity = Ok (body, urls)
          /\ Parse r =
               Ok {| MessageID :=
                       Trim (Header_MessageID (Entity_Header entity)).1 "<> ";
                     From := (Header_AddressList (Entity_Header entity) "From").1;
                     To := (Header_AddressList (Entity_Header entity) "To").1;
                     Subject := (Header_Subject (Entity_Header entity)).1;
                     Body_ := body;
                     URLs := urls;
                     Header := Entity_Header entity |})
  /\ Trim EmptyString "<> " = EmptyString.
Proof.
  split; [|split; [|reflexivity]].
  - unfold Parse. destruct (message_Read r) as [entity|err]; simpl.
    + pose proof (extract_isOk entity) as Hok.
      destruct (extractBodyAndURLs entity) as [[body urls]|err]; simpl in *.
      * split; [discriminate|]. intros [H | (e & [= <-] & H)]; [discriminate|].
        rewrite H in Hok. discriminate.
      * split; [|reflexivity]. intros _. right. exists entity.
        split; [reflexivity|]. now destruct (textBodyUnreadable entity).
    + split; [|reflexivity]. intros _. now left.
  - intros entity Hr Hu. unfold Parse. rewrite Hr.
    pose proof (extract_isOk entity) as Hok. rewrite Hu in Hok.
    destruct (extractBodyAndURLs entity) as [[body urls]|err]; [|discriminate].
    now exists body, urls.
Qed.

Lemma messageStep_results results next :
  messageStep results next = results ++ messageStep [] next.
Proof.
  unfold messageStep. destruct next as [err|rawMessage].
  - now rewrite app_nil_r.
  - destruct (Parse rawMessage) as [parsedEmail|err]; [|now rewrite app_nil_r].
    destruct (Analyze parsedEmail); [reflexivity | now rewrite app_nil_r].
Qed.

Lemma fold_messageStep messages results :
  fold_left messageStep messages results = results ++ processMessages messages.
Proof.
  unfold processMessages. revert results.
  induction messages as [|next messages IH]; intros results.
  - simpl. now rewrite app_nil_r.
  - simpl. rewrite IH, (IH (messageStep [] next)), messageStep_results.
    now rewrite <- app_assoc.
Qed.

Lemma processMessages_app before after :
  processMessages (before ++ after) =
    processMessages before ++ processMessages after.
Proof.
  unfold processMessages at 1. rewrite fold_left_app.
  fold (processMessages before). apply fold_messageStep.
Qed.

(** C9.  A message that [Parse] returns an error on adds no record and
    stops nothing: of three messages whose second fails, the first and the
    third give their records, in order; and wherever the failing message
    stands in the mbox, the records are those of the mbox without it. *)
Theorem container_survives_bad_message m1 m2 m3 p1 p3 j1 j3 err :
  Parse m1 = Ok p1 -> Analyze p1 = Ok j1 ->
  Parse m2 = Err err ->
  Parse m3 = Ok p3 -> Analyze p3 = Ok j3 ->
  processMessages [NextMessageOk m1; NextMessageOk m2; NextMessageOk m3] =
    [resultOf p1 j1; resultOf p3 j3]
  /\ (forall before after,
        processMessages (before ++ NextMessageOk m2 :: after) =
          processMessages (before ++ after)).
Proof.
  intros H1 A1 H2 H3 A3. split.
  - unfold processMessages. simpl. now rewrite H1, A1, H2, H3, A3.
  - intros before after.
    rewrite !processMessages_app.
    change (NextMessageOk m2 :: after) with ([NextMessageOk m2] ++ after).
    rewrite processMessages_app. f_equal.
    unfold processMessages at 1. simpl. now rewrite H2.
Qed.

(* ===================================================================== *)
(** ** Lengths, substrings and reversal *)
(* ===================================================================== *)

Lemma length_append (a b : string) :
  String.length (a +:+ b) = String.length a + String.length b.
Proof.
  induction a as [|x a IH]; [reflexivity|].
  rewrite append_cons. simpl. now rewrite IH.
Qed.

Lemma substring_0_append (a b : string) :
  substring 0 (String.length a) (a +:+ b) = a.
Proof.
  induction a as [|x a IH]; [now destruct b|].
  rewrite append_cons. simpl. now rewrite IH.
Qed.

Lemma substring_skip_append (a b : string) (n : nat) :
  substring (String.length a) n (a +:+ b) = substring 0 n b.
Proof. induction a as [|x a IH]; [reflexivity|]. exact IH. Qed.

Lemma length_substring_0 (n : nat) (s : string) :
  String.length (substring 0 n s) = Nat.min n (String.length s).
Proof.
  revert s. induction n as [|n IH]; intros [|c s]; try reflexivity.
  simpl. now rewrite IH.
Qed.

Lemma rev_app_rev_app (s a b : string) :
  String.rev_app (String.rev_app s a) b = String.rev_app a (s +:+ b).
Proof.
  revert a b. induction s as [|c s IH]; intros a b; [reflexivity|].
  simpl. rewrite IH. reflexivity.
Qed.

Lemma rev_involutive (s : string) : String.rev (String.rev s) = s.
Proof.
  unfold String.rev. rewrite rev_app_rev_app. simpl. apply append_empty_r.
Qed.

Lemma rev_app_append (a b acc : string) :
  String.rev_app (a +:+ b) acc = String.rev_app b (String.rev_app a acc).
Proof.
  revert acc. induction a as [|c a IH]; intros acc; [reflexivity|].
  rewrite append_cons. simpl. apply IH.
Qed.

Lemma rev_app_acc (s acc : string) :
  String.rev_app s acc = String.rev s +:+ acc.
Proof.
  unfold String.rev. revert acc.
  induction s as [|c s IH]; intros acc; [reflexivity|].
  simpl. rewrite IH, (IH (String c EmptyString)), append_assoc. reflexivity.
Qed.

Lemma rev_append (a b : string) :
  String.rev (a +:+ b) = String.rev b +:+ String.rev a.
Proof.
  unfold String.rev at 1. rewrite rev_app_append, rev_app_acc. reflexivity.
Qed.

(* ===================================================================== *)
(** ** What a match of a pattern is *)
(* ===================================================================== *)

Lemma starGreedy_sound {R : Type} p s pos (k : string -> nat -> option R) x :
  starGreedy p s pos k = Some x ->
  exists s1 s2,
    s = s1 +:+ s2 /\ allBytes p s1 = true
    /\ k s2 (pos + String.length s1) = Some x.
Proof.
  revert pos. induction s as [|c s IH]; intros pos H; simpl in H.
  - exists EmptyString, EmptyString. now rewrite Nat.add_0_r.
  - assert (Hstop : k (String c s) pos = Some x ->
                    exists s1 s2,
                      String c s = s1 +:+ s2 /\ allBytes p s1 = true
                      /\ k s2 (pos + String.length s1) = Some x).
    { intros Hk. exists EmptyString, (String c s). now rewrite Nat.add_0_r. }
    destruct (p c) eqn:Hp; [|now apply Hstop].
    destruct (starGreedy p s (S pos) k) as [y|] eqn:Hs; [|now apply Hstop].
    injection H as ->.
    apply IH in Hs as (s1 & s2 & -> & Ha & Hk).
    exists (String c s1), s2. simpl. rewrite Hp, Ha.
    split; [reflexivity|]. split; [reflexivity|].
    now rewrite Nat.add_succ_r.
Qed.

Lemma starLazy_sound {R : Type} p s pos (k : string -> nat -> option R) x :
  starLazy p s pos k = Some x ->
  exists s1 s2,
    s = s1 +:+ s2 /\ allBytes p s1 = true
    /\ k s2 (pos + String.length s1) = Some x.
Proof.
  revert pos. induction s as [|c s IH]; intros pos H; simpl in H.
  - destruct (k EmptyString pos) as [y|] eqn:Hk; [|discriminate].
    exists EmptyString, EmptyString. now rewrite Nat.add_0_r, Hk.
  - destruct (k (String c s) pos) as [y|] eqn:Hk.
    + exists EmptyString, (String c s). now rewrite Nat.add_0_r, Hk.
    + destruct (p c) eqn:Hp; [|discriminate].
      apply IH in H as (s1 & s2 & -> & Ha & Hk').
      exists (String c s1), s2. simpl. rewrite Hp, Ha.
      split; [reflexivity|]. split; [reflexivity|].
      now rewrite Nat.add_succ_r.
Qed.

(** The search only reports what the pattern matches: it consumes a prefix
    of the text that the pattern matches and gives the rest, at the right
    position, to its continuation. *)
Lemma exec_sound {R : Type} r :
  forall s pos cap (k : string -> nat -> option (nat * nat) -> option R) x,
    exec r s pos cap k = Some x ->
    exists s1 s2 cap',
      s = s1 +:+ s2 /\ matches r s1
      /\ k s2 (pos + String.length s1) cap' = Some x.
Proof.
  induction r as [c|p|r1 IH1 r2 IH2|r1 IH1|greedy p|r1 IH1];
    intros s pos cap k x H; simpl in H.
  - destruct s as [|d s]; [discriminate|].
    destruct (Ascii.eqb_spec d c) as [->|]; [|discriminate].
    exists (String c EmptyString), s, cap. simpl.
    rewrite Nat.add_1_r. split; [reflexivity|]. split; [constructor | exact H].
  - destruct s as [|d s]; [discriminate|].
    destruct (p d) eqn:Hp; [|discriminate].
    exists (String d EmptyString), s, cap. simpl.
    rewrite Nat.add_1_r. split; [reflexivity|].
    split; [now constructor | exact H].
  - apply IH1 in H as (a & s2 & cap1 & -> & Ha & H).
    apply IH2 in H as (b & s3 & cap2 & -> & Hb & H).
    exists (a +:+ b), s3, cap2.
    rewrite append_assoc, length_append, Nat.add_assoc.
    split; [reflexivity|]. split; [now constructor | exact H].
  - destruct (exec r1 s pos cap k) as [y|] eqn:H1.
    + injection H as ->.
      apply IH1 in H1 as (a & s2 & cap1 & -> & Ha & H).
      exists a, s2, cap1. split; [reflexivity|].
      split; [now apply matches_Quest_some | exact H].
    + exists EmptyString, s, cap. rewrite Nat.add_0_r.
      split; [reflexivity|]. split; [constructor | exact H].
  - destruct greedy.
    + apply starGreedy_sound in H as (a & s2 & -> & Ha & H).
      exists a, s2, cap. split; [reflexivity|].
      split; [now constructor | exact H].
    + apply starLazy_sound in H as (a & s2 & -> & Ha & H).
      exists a, s2, cap. split; [reflexivity|].
      split; [now constructor | exact H].
  - apply IH1 in H as (a & s2 & cap1 & -> & Ha & H).
    exists a, s2, (Some (pos, pos + String.length a)).
    split; [reflexivity|]. split; [now constructor | exact H].
Qed.

(** A pattern without a group leaves the extent of the group as it
    was. *)
Lemma exec_sound_nogroup {R : Type} r :
  hasGroup r = false ->
  forall s pos cap (k : string -> nat -> option (nat * nat) -> option R) x,
    exec r s pos cap k = Some x ->
    exists s1 s2,
      s = s1 +:+ s2 /\ matches r s1
      /\ k s2 (pos + String.length s1) cap = Some x.
Proof.
  induction r as [c|p|r1 IH1 r2 IH2|r1 IH1|greedy p|r1 IH1];
    intros Hg s pos cap k x H; simpl in H, Hg.
  - destruct s as [|d s]; [discriminate|].
    destruct (Ascii.eqb_spec d c) as [->|]; [|discriminate].
    exists (String c EmptyString), s. simpl.
    rewrite Nat.add_1_r. split; [reflexivity|]. split; [constructor | exact H].
  - destruct s as [|d s]; [discriminate|].
    destruct (p d) eqn:Hp; [|discriminate].
    exists (String d EmptyString), s. simpl.
    rewrite Nat.add_1_r. split; [reflexivity|].
    split; [now constructor | exact H].
  - apply orb_false_iff in Hg as [Hg1 Hg2].
    apply (IH1 Hg1) in H as (a & s2 & -> & Ha & H).
    apply (IH2 Hg2) in H as (b & s3 & -> & Hb & H).
    exists (a +:+ b), s3.
    rewrite append_assoc, length_append, Nat.add_assoc.
    split; [reflexivity|]. split; [now constructor | exact H].
  - destruct (exec r1 s pos cap k) as [y|] eqn:H1.
    + injection H as ->.
      apply (IH1 Hg) in H1 as (a & s2 & -> & Ha & H).
      exists a, s2. split; [reflexivity|].
      split; [now apply matches_Quest_some | exact H].
    + exists EmptyString, s. rewrite Nat.add_0_r.
      split; [reflexivity|]. split; [constructor | exact H].
  - destruct greedy.
    + apply starGreedy_sound in H as (a & s2 & -> & Ha & H).
      exists a, s2. split; [reflexivity|].
      split; [now constructor | exact H].
    + apply starLazy_sound in H as (a & s2 & -> & Ha & H).
      exists a, s2. split; [reflexivity|].
      split; [now constructor | exact H].
  - discriminate.
Qed.

Lemma matchAt_sound r s n cap :
  matchAt r s = Some (n, cap) ->
  exists s1 s2, s = s1 +:+ s2 /\ matches r s1 /\ n = String.length s1.
Proof.
  unfold matchAt. intros H.
  apply exec_sound in H as (s1 & s2 & cap' & -> & Hm & H).
  injection H as <- _. now exists s1, s2.
Qed.

Lemma findAll_elem r s skip m g :
  (m, g) ∈ findAll r s skip ->
  exists pre s' n cap,
    s = pre +:+ s'
    /\ matchAt r s' = Some (S n, cap)
    /\ m = substring 0 (S n) s' /\ g = submatch s' cap.
Proof.
  revert skip. induction s as [|c s IH]; intros skip H; simpl in H.
  - now apply elem_of_nil in H.
  - assert (Hnext : forall k, (m, g) ∈ findAll r s k ->
                      exists pre s' n cap,
                        String c s = pre +:+ s'
                        /\ matchAt r s' = Some (S n, cap)
                        /\ m = substring 0 (S n) s' /\ g = submatch s' cap).
    { intros k Hk. apply IH in Hk as (pre & s' & n & cap & -> & Hk).
      now exists (String c pre), s', n, cap. }
    destruct skip as [|k]; [|now apply Hnext in H].
    destruct (matchAt r (String c s)) as [[[|n] cap]|] eqn:Hm;
      try now apply Hnext in H.
    apply elem_of_cons in H as [[= -> ->] | H]; [|now apply Hnext in H].
    now exists EmptyString, (String c s), n, cap.
Qed.

(** Every string [FindAllString] returns is matched by the pattern and
    stands in the text. *)
Lemma FindAllString_found r s m :
  m ∈ FindAllString r s ->
  matches r m /\ exists a b, s = a +:+ m +:+ b.
Proof.
  unfold FindAllString. intros H.
  apply list_elem_of_fmap in H as ([m' g] & -> & H). simpl.
  apply findAll_elem in H as (pre & s' & n & cap & -> & Hm & -> & _).
  apply matchAt_sound in Hm as (s1 & s2 & -> & Hs1 & ->).
  rewrite substring_0_append. split; [exact Hs1|]. now exists pre, s2.
Qed.

Lemma FindAllString_matches r s m :
  m ∈ FindAllString r s -> matches r m.
Proof. intros H. now apply FindAllString_found in H. Qed.

(** A match of the free-text pattern: the scheme, a run of bytes that are
    no white space, double quote or angle bracket, and one such byte that
    is no punctuation either. *)
Lemma urlRegex_shape m :
  matches urlRegex m ->
  exists scheme run c,
    m = scheme +:+ run +:+ String c EmptyString
    /\ (scheme = "http://" \/ scheme = "https://")
    /\ allBytes (notIn true (String dq "<>")) run = true
    /\ notIn true (String dq "<>,.?!;)") c = true.
Proof.
  unfold urlRegex. cbn [Lit]. intros H. inv_matches.
  match goal with H : matches (Quest _) _ |- _ => inversion H; subst; clear H end;
    inv_matches;
    match goal with
    | Hr : allBytes _ ?run = true, Hc : notIn _ _ ?c = true |- _ =>
        first [ exists "http://", run, c; split; [reflexivity|]; now auto
              | exists "https://", run, c; split; [reflexivity|]; now auto ]
    end.
Qed.

(** What the group of the href pattern matches: the scheme and one or more
    bytes other than the double quote. *)
Lemma hrefGroup_shape r g :
  r = Lit "http"
        (Cat (Quest (Chr "s"))
        (Lit "://"
          (Cat (Class (notIn false (String dq EmptyString)))
               (Star true (notIn false (String dq EmptyString)))))) ->
  matches r g ->
  exists scheme rest,
    g = scheme +:+ rest
    /\ (scheme = "http://" \/ scheme = "https://")
    /\ allBytes (notIn false (String dq EmptyString)) rest = true
    /\ rest <> EmptyString.
Proof.
  intros ->. cbn [Lit]. intros H. inv_matches.
  match goal with H : matches (Quest _) _ |- _ => inversion H; subst; clear H end;
    inv_matches;
    match goal with
    | Hr : allBytes _ ?run = true, Hc : notIn _ _ ?c = true |- _ =>
        first [ exists "http://", (String c run); split; [reflexivity|];
                split; [now left|]; split; [simpl; now rewrite Hc, Hr | discriminate]
              | exists "https://", (String c run); split; [reflexivity|];
                split; [now right|]; split; [simpl; now rewrite Hc, Hr | discriminate] ]
    end.
Qed.

Lemma exec_Cat_peel {R : Type} r1 r2 whole pre s cap
    (k : string -> nat -> option (nat * nat) -> option R) x :
  whole = pre +:+ s ->
  exec (Cat r1 r2) s (String.length pre) cap k = Some x ->
  exists s1 s' cap',
    matches r1 s1
    /\ whole = (pre +:+ s1) +:+ s'
    /\ exec r2 s' (String.length (pre +:+ s1)) cap' k = Some x.
Proof.
  intros -> H. simpl in H.
  apply exec_sound in H as (s1 & s2 & cap' & -> & Hm & H).
  exists s1, s2, cap'. split; [exact Hm|].
  now rewrite append_assoc, length_append.
Qed.

(** The group as the last but one piece of a pattern: its extent is the
    text it matched. *)
Lemma exec_group_then r r2 whole pre s cap0 n cap :
  hasGroup r2 = false ->
  whole = pre +:+ s ->
  exec (Cat (Group r) r2) s (String.length pre) cap0
       (fun _ n cap => Some (n, cap)) = Some (n, cap) ->
  matches r (submatch whole cap)
  /\ exists t b,
       matches r2 t /\ whole = pre +:+ submatch whole cap +:+ t +:+ b.
Proof.
  intros Hg -> H. simpl in H.
  apply exec_sound in H as (g & s2 & cap' & -> & Hm & H).
  apply (exec_sound_nogroup _ Hg) in H as (t & b & -> & Ht & H).
  injection H as _ <-. unfold submatch.
  replace (String.length pre + String.length g - String.length pre)
    with (String.length g) by lia.
  rewrite substring_skip_append, substring_0_append.
  split; [exact Hm|]. now exists t, b.
Qed.

(** The text of the group of every match of the href pattern, which
    stands in the text. *)
Lemma hrefRegex_capture s g :
  g ∈ FindAllStringSubmatch1 hrefRegex s ->
  (exists a b, s = a +:+ g +:+ b)
  /\ exists scheme rest,
       g = scheme +:+ rest
       /\ (scheme = "http://" \/ scheme = "https://")
       /\ allBytes (notIn false (String dq EmptyString)) rest = true
       /\ rest <> EmptyString.
Proof.
  unfold FindAllStringSubmatch1. intros H.
  apply list_elem_of_fmap in H as ([m g'] & -> & H). simpl.
  apply findAll_elem in H as (pre & s' & n & cap & -> & Hm & _ & ->).
  unfold matchAt, hrefRegex in Hm. cbn [Lit] in Hm.
  apply (exec_Cat_peel _ _ s' EmptyString) in Hm as (p1 & s1 & c1 & _ & E & Hm);
    [|reflexivity].
  do 7 (apply (exec_Cat_peel _ _ s' _ _ _ _ _ E) in Hm;
        clear E; destruct Hm as (? & ? & ? & _ & E & Hm)).
  apply (fun Hg => exec_group_then _ _ _ _ _ _ _ _ Hg E) in Hm
    as (Hg & t & b & _ & Hb); [|reflexivity].
  split.
  - eexists (pre +:+ _), (t +:+ b). rewrite append_assoc. now rewrite <- Hb.
  - now apply (hrefGroup_shape _ _ eq_refl).
Qed.


Lemma TrimRight_keeps (c : ascii) (s cutset : string) :
  inCutset c cutset = false ->
  TrimRight (String c s) cutset = String c (TrimRight s cutset).
Proof.
  intros H. rewrite TrimRight_cons, H. now destruct (TrimRight s cutset).
Qed.

Lemma TrimRight_scheme scheme rest :
  scheme = "http://" \/ scheme = "https://" ->
  isWebURL (TrimRight (scheme +:+ rest) punctuation) = true.
Proof.
  intros [-> | ->]; rewrite !append_cons, append_nil;
    rewrite !TrimRight_keeps by reflexivity;
    now destruct (TrimRight rest punctuation).
Qed.

Lemma allBytes_append p a b :
  allBytes p (a +:+ b) = allBytes p a && allBytes p b.
Proof.
  induction a as [|c a IH]; [reflexivity|].
  rewrite append_cons. simpl. now rewrite IH, andb_assoc.
Qed.

Lemma allBytes_impl (p q : ascii -> bool) s :
  (forall c, p c = true -> q c = true) ->
  allBytes p s = true -> allBytes q s = true.
Proof.
  intros Hpq. induction s as [|c s IH]; [reflexivity|]. simpl.
  intros H. apply andb_true_iff in H as [Hc H].
  now rewrite (Hpq _ Hc), IH.
Qed.

Lemma allBytes_ext (p q : ascii -> bool) s :
  (forall c, p c = q c) -> allBytes p s = allBytes q s.
Proof.
  intros Hpq. induction s as [|c s IH]; [reflexivity|]. simpl.
  now rewrite Hpq, IH.
Qed.

(** A byte outside a class that lists the double quote first is no double
    quote. *)
Lemma notIn_quote white set c :
  notIn white (String dq set) c = true -> negb (Ascii.eqb c dq) = true.
Proof.
  unfold notIn. simpl. intros H.
  apply negb_true_iff, orb_false_iff in H as [_ H].
  apply orb_false_iff in H as [H _]. now rewrite H.
Qed.

Lemma endsIn_snoc a c cutset :
  endsIn (a +:+ String c EmptyString) cutset = inCutset c cutset.
Proof.
  induction a as [|x a IH]; [reflexivity|].
  rewrite append_cons. simpl. rewrite IH.
  now destruct (a +:+ String c EmptyString) eqn:E; [destruct a; discriminate E|].
Qed.

(** What the trim keeps is the start of the string. *)
Lemma TrimRight_prefix s cutset : exists q, s = TrimRight s cutset +:+ q.
Proof.
  induction s as [|c s (q & IH)]; [now exists EmptyString|].
  rewrite TrimRight_cons.
  destruct (TrimRight s cutset) as [|d t] eqn:E.
  - destruct (inCutset c cutset).
    + now exists (String c s).
    + exists s. reflexivity.
  - exists q. rewrite append_cons. now rewrite <- IH.
Qed.

(** The URLs both passes find in a text start with one of the two
    schemes and hold no double quote. *)
Lemma leafURLs_scheme leaf r :
  r ∈ leafURLs leaf ->
  allBytes (fun c => negb (Ascii.eqb c dq)) r = true
  /\ exists scheme rest,
       r = scheme +:+ rest /\ (scheme = "http://" \/ scheme = "https://").
Proof.
  unfold leafURLs, scanText. simpl. intros H.
  apply elem_of_app in H as [H | H].
  - apply hrefRegex_capture in H as (_ & scheme & rest & -> & Hs & Hr & _).
    split; [|now exists scheme, rest].
    rewrite allBytes_append. apply andb_true_iff. split.
    + now destruct Hs as [-> | ->].
    + erewrite allBytes_ext; [exact Hr|].
      intros c. unfold notIn. simpl. now rewrite orb_false_r.
  - apply FindAllString_matches, urlRegex_shape in H
      as (scheme & run & c & -> & Hs & Hr & Hc).
    split; [|now exists scheme, (run +:+ String c EmptyString)].
    rewrite !allBytes_append. apply andb_true_iff. split.
    + now destruct Hs as [-> | ->].
    + apply andb_true_iff. split.
      * apply (allBytes_impl _ _ _ (fun c H => notIn_quote _ _ c H) Hr).
      * simpl. rewrite andb_true_r. apply (notIn_quote _ _ _ Hc).
Qed.

Lemma collect_found entity bodyBuilder raw r :
  collect entity = Ok (bodyBuilder, raw) ->
  r ∈ raw ->
  exists leaf, r ∈ leafURLs leaf.
Proof.
  unfold collect.
  destruct (match Header_ContentType (Entity_Header entity) with
            | Ok ct => ct
            | Err _ => ("text/plain", ∅)
            end) as [mediaType params].
  destruct (HasPrefix mediaType "multipart/").
  - destruct (String.eqb (index params "boundary") EmptyString).
    + intros [= _ <-] H. now apply elem_of_nil in H.
    + rewrite fold_partStep. intros [= _ <-] H. simpl in H.
      apply list_elem_of_In, in_flat_map in H as (leaf & _ & H).
      exists leaf. now apply list_elem_of_In.
  - destruct (_ || _).
    + destruct (ReadAll (Entity_Body entity)) as [content [err|]]; [discriminate|].
      rewrite scanText_urls. intros [= _ <-] H. simpl in H.
      eexists. exact H.
    + intros [= _ <-] H. now apply elem_of_nil in H.
Qed.

(** X1.  Every URL of the list starts with [http://] or with [https://],
    also after the trim of its trailing punctuation, and holds no double
    quote: nothing else reaches the list. *)
Theorem every_url_is_a_web_address entity body urls :
  extractBodyAndURLs entity = Ok (body, urls) ->
  Forall (fun u => isWebURL u = true
                   /\ allBytes (fun c => negb (Ascii.eqb c dq)) u = true)
         urls.
Proof.
  intros H. apply extract_collect in H as (bodyBuilder & raw & Hc & _ & ->).
  apply Forall_forall. intros u Hu.
  apply uniqueURLs_elem, list_elem_of_fmap in Hu as (r & -> & Hr).
  destruct (collect_found _ _ _ _ Hc Hr) as (leaf & Hl).
  apply leafURLs_scheme in Hl as (Hq & scheme & rest & -> & Hs).
  split; [now apply TrimRight_scheme|].
  unfold trim. destruct (TrimRight_prefix (scheme +:+ rest) punctuation) as (q & E).
  rewrite E, allBytes_append in Hq. now apply andb_true_iff in Hq as [Hq _].
Qed.

(** X2.  A match of the free-text pattern holds no white space, double
    quote or angle bracket and does not end in a punctuation byte: the trim
    of line 181 leaves it as it is, so only addresses read from an href
    attribute are ever shortened. *)
Theorem free_text_urls_need_no_trim text :
  Forall (fun m => TrimRight m punctuation = m
                   /\ allBytes (fun c => negb (urlStop c)) m = true)
         (FindAllString urlRegex text).
Proof.
  apply Forall_forall. intros m Hm.
  apply FindAllString_matches, urlRegex_shape in Hm
    as (scheme & run & c & -> & Hs & Hrun & Hc).
  unfold notIn in Hc. simpl andb in Hc.
  apply negb_true_iff, orb_false_iff in Hc as [Hw Hc].
  split.
  - apply TrimRight_fixed. rewrite <- append_assoc, endsIn_snoc.
    simpl in Hc. simpl.
    repeat (apply orb_false_iff in Hc as [? Hc]).
    now repeat (apply orb_false_iff; split).
  - rewrite !allBytes_append. apply andb_true_iff. split.
    + now destruct Hs as [-> | ->].
    + apply andb_true_iff. split; [exact Hrun|].
      simpl. rewrite andb_true_r. unfold urlStop. rewrite Hw. simpl.
      simpl in Hc. repeat (apply orb_false_iff in Hc as [? Hc]).
      apply negb_true_iff. now repeat (apply orb_false_iff; split).
Qed.

Lemma Contains_unfold s sub :
  Contains s sub =
    String.prefix sub s
    || match s with
       | EmptyString => false
       | String _ s' => Contains s' sub
       end.
Proof. now destruct s. Qed.

Lemma prefix_append b c : String.prefix b (b +:+ c) = true.
Proof.
  induction b as [|x b IH]; [now destruct c|].
  rewrite append_cons. simpl.
  destruct (ascii_dec x x) as [_|Hx]; [exact IH | now destruct Hx].
Qed.

Lemma Contains_infix a b c : Contains (a +:+ b +:+ c) b = true.
Proof.
  induction a as [|x a IH].
  - rewrite append_nil, Contains_unfold, prefix_append. reflexivity.
  - rewrite append_cons, Contains_unfold, IH. apply orb_true_r.
Qed.

(** The trim of a string that stands in a text stands in it. *)
Lemma Contains_trim text r :
  (exists a b, text = a +:+ r +:+ b) -> Contains text (trim r) = true.
Proof.
  intros (a & b & ->). unfold trim.
  destruct (TrimRight_prefix r punctuation) as (q & Hq).
  rewrite Hq at 1. rewrite append_assoc. apply Contains_infix.
Qed.

(** X3.  No URL is made up: every URL of a text entity stands, byte for
    byte, in its decoded text or in that text after the tags are stripped,
    and every URL of a text/plain entity in its decoded text. *)
Theorem every_url_stands_in_the_text entity mediaType params content body urls :
  Header_ContentType (Entity_Header entity) = Ok (mediaType, params) ->
  String.eqb mediaType "text/plain" || String.eqb mediaType "text/html" = true ->
  ReadAll (Entity_Body entity) = (content, None) ->
  extractBodyAndURLs entity = Ok (body, urls) ->
  Forall (fun u =>
            Contains (decodeDeclared content (index params "charset")) u = true
            \/ Contains
                 (ReplaceAllString tagRegex
                    (decodeDeclared content (index params "charset")) " ")
                 u = true)
         urls
  /\ (mediaType = "text/plain" ->
      Forall (fun u =>
                Contains (decodeDeclared content (index params "charset")) u = true)
             urls).
Proof.
  intros Hct Ht Hr H.
  apply extract_collect in H as (bodyBuilder & raw & Hc & _ & ->).
  unfold collect in Hc.
  rewrite Hct, (text_is_not_multipart _ Ht), Ht, Hr in Hc.
  unfold scanText in Hc. injection Hc as _ <-. simpl app.
  set (text := decodeDeclared content (index params "charset")).
  split.
  - apply Forall_forall. intros u Hu.
    apply uniqueURLs_elem, list_elem_of_fmap in Hu as (r & -> & Hu).
    apply elem_of_app in Hu as [Hu | Hu].
    + left. apply Contains_trim. now apply hrefRegex_capture in Hu as [Hu _].
    + apply FindAllString_found in Hu as [_ Hu].
      destruct (String.eqb mediaType "text/html").
      * right. now apply Contains_trim.
      * left. now apply Contains_trim.
  - intros ->. simpl. apply Forall_forall. intros u Hu.
    apply uniqueURLs_elem, list_elem_of_fmap in Hu as (r & -> & Hu).
    apply Contains_trim.
    apply elem_of_app in Hu as [Hu | Hu].
    + now apply hrefRegex_capture in Hu as [Hu _].
    + now apply FindAllString_found in Hu as [_ Hu].
Qed.

(** The greedy run finds a match whenever some split of the text gives
    one. *)
Lemma starGreedy_complete {R : Type} p s1 s2 pos (k : string -> nat -> option R) :
  allBytes p s1 = true ->
  k s2 (pos + String.length s1) <> None ->
  starGreedy p (s1 +:+ s2) pos k <> None.
Proof.
  revert pos. induction s1 as [|c s1 IH]; intros pos Hp Hk.
  - rewrite append_nil. simpl in Hk. rewrite Nat.add_0_r in Hk.
    destruct s2 as [|d s2]; [exact Hk|]. simpl.
    destruct (p d); [|exact Hk].
    now destruct (starGreedy p s2 (S pos) k).
  - rewrite append_cons. simpl in *.
    apply andb_true_iff in Hp as [Hc Hp]. rewrite Hc.
    rewrite Nat.add_succ_r in Hk.
    pose proof (IH (S pos) Hp Hk) as Hs.
    now destruct (starGreedy p (s1 +:+ s2) (S pos) k).
Qed.

Lemma exec_Lit {R : Type} l r s pos cap
    (k : string -> nat -> option (nat * nat) -> option R) :
  exec (Lit l r) (l +:+ s) pos cap k = exec r s (pos + String.length l) cap k.
Proof.
  revert pos. induction l as [|c l IH]; intros pos.
  - simpl. now rewrite Nat.add_0_r.
  - rewrite append_cons. simpl. rewrite Ascii.eqb_refl, IH.
    now rewrite Nat.add_succ_r.
Qed.

(** The free-text pattern matches wherever a scheme is followed by a byte
    of its last class. *)
Lemma urlRegex_matches_at scheme c after :
  scheme = "http://" \/ scheme = "https://" ->
  notIn true (String dq "<>,.?!;)") c = true ->
  exists n cap,
    matchAt urlRegex (scheme +:+ String c after) = Some (S n, cap).
Proof.
  intros Hs Hc.
  assert (Hrun : forall pos,
            exec (Cat (Star true (notIn true (String dq "<>")))
                      (Class (notIn true (String dq "<>,.?!;)"))))
                 (String c after) pos None
                 (fun _ n cap => Some (n, cap)) <> None).
  { intros pos. cbn [exec].
    apply (starGreedy_complete _ EmptyString); [reflexivity|].
    cbn [exec]. now rewrite Hc. }
  assert (H : matchAt urlRegex (scheme +:+ String c after) <> None).
  { unfold matchAt, urlRegex.
    destruct Hs as [-> | ->].
    - change ("http://" +:+ String c after)
        with ("http" +:+ ("://" +:+ String c after)).
      rewrite exec_Lit. cbn [exec].
      change (exec (Chr "s") ("://" +:+ String c after) (0 + String.length "http") None _)
        with (@None (nat * option (nat * nat))).
      cbv iota. rewrite exec_Lit. apply Hrun.
    - change ("https://" +:+ String c after)
        with ("http" +:+ String "s" ("://" +:+ String c after)).
      rewrite exec_Lit. cbn [exec]. rewrite Ascii.eqb_refl, exec_Lit.
      pose proof (Hrun (S (0 + String.length "http") + String.length "://")) as Hr.
      now destruct (exec (Cat _ _) (String c after) _ None _). }
  destruct (matchAt urlRegex (scheme +:+ String c after)) as [[n cap]|] eqn:E;
    [|now destruct H].
  apply matchAt_sound in E as (s1 & s2 & _ & Hm & ->).
  apply urlRegex_shape in Hm as (sch & run & d & -> & [-> | ->] & _);
    now eexists _, cap.
Qed.

(** A match somewhere in the text gives a non-empty list, whether the
    match at that place or one that covers it. *)
Lemma findAll_nonempty r pre s n cap skip :
  matchAt r s = Some (S n, cap) ->
  skip <= String.length pre ->
  findAll r (pre +:+ s) skip <> [].
Proof.
  intros Hm. revert skip. induction pre as [|c pre IH]; intros skip Hk.
  - rewrite append_nil. simpl in Hk. replace skip with 0 by lia.
    destruct s as [|c s].
    + apply matchAt_sound in Hm as ([|d s1] & s2 & E & _ & Hn); discriminate.
    + cbn [findAll]. now rewrite Hm.
  - rewrite append_cons. cbn [findAll]. simpl in Hk.
    destruct skip as [|k]; [|apply IH; lia].
    destruct (matchAt r (String c (pre +:+ s))) as [[[|m] cap']|];
      try (apply IH; lia).
    discriminate.
Qed.

(** X4.  A link in a text/plain entity is not missed: when its decoded
    text holds [http://] or [https://] followed by a byte that is no white
    space, double quote, angle bracket or punctuation, the URL list is not
    empty. *)
Theorem plain_text_link_is_not_missed
    entity params content body urls before scheme c after :
  Header_ContentType (Entity_Header entity) = Ok ("text/plain", params) ->
  ReadAll (Entity_Body entity) = (content, None) ->
  decodeDeclared content (index params "charset") =
    before +:+ scheme +:+ String c after ->
  scheme = "http://" \/ scheme = "https://" ->
  notIn true (String dq "<>,.?!;)") c = true ->
  extractBodyAndURLs entity = Ok (body, urls) ->
  urls <> [].
Proof.
  intros Hct Hr Htext Hs Hc H.
  apply extract_collect in H as (bodyBuilder & raw & Hcol & _ & ->).
  unfold collect in Hcol. rewrite Hct, Hr in Hcol. simpl in Hcol.
  injection Hcol as _ <-. unfold scanText. simpl. rewrite Htext.
  destruct (urlRegex_matches_at scheme c after Hs Hc) as (n & cap & Hm).
  pose proof (findAll_nonempty urlRegex before _ n cap 0 Hm ltac:(lia)) as Hf.
  destruct (findAll urlRegex (before +:+ scheme +:+ String c after) 0)
    as [|[m g] l] eqn:E; [now destruct Hf|].
  intros Hnil.
  assert (Hin : trim m ∈ uniqueURLs
                  (FindAllStringSubmatch1 hrefRegex
                     (before +:+ scheme +:+ String c after)
                   ++ FindAllString urlRegex
                        (before +:+ scheme +:+ String c after))).
  { apply uniqueURLs_elem, list_elem_of_fmap. exists m. split; [reflexivity|].
    apply elem_of_app. right. unfold FindAllString. rewrite E.
    apply list_elem_of_here. }
  rewrite Hnil in Hin. now apply elem_of_nil in Hin.
Qed.

(* ===================================================================== *)
(** ** White space around the body *)
(* ===================================================================== *)

Lemma spaceAtHead_fixed s : spaceAtHead s = false -> trimLeftSpace s = s.
Proof.
  destruct s as [|c1 [|c2 [|c3 t3]]]; cbn [spaceAtHead trimLeftSpace];
    intros H; case_spaces H; reflexivity.
Qed.

Lemma spaceAtHeadRev_fixed s : spaceAtHeadRev s = false -> trimSpaceRev s = s.
Proof.
  destruct s as [|c1 [|c2 [|c3 t3]]]; cbn [spaceAtHeadRev trimSpaceRev];
    intros H; case_spaces H; reflexivity.
Qed.

(** What is left after the trim starts with no white space, and is the
    end of the string that was trimmed. *)
Lemma trimLeftSpace_clean s :
  spaceAtHead (trimLeftSpace s) = false
  /\ exists p, s = p +:+ trimLeftSpace s.
Proof.
  assert (H : forall n s, String.length s <= n ->
                spaceAtHead (trimLeftSpace s) = false
                /\ exists p, s = p +:+ trimLeftSpace s).
  { clear s. induction n as [|n IH]; intros s Hn.
    - destruct s; [|simpl in Hn; lia]. split; [reflexivity|].
      now exists EmptyString.
    - assert (Hstay : forall t, spaceAtHead t = false ->
                spaceAtHead t = false /\ exists p, t = p +:+ t).
      { intros t Ht. split; [exact Ht|]. now exists EmptyString. }
      destruct s as [|c1 t1]; [now apply Hstay|].
      cbn [trimLeftSpace]. destruct (isSpace1 c1) eqn:E1.
      { destruct (IH t1) as (Hc & p & Hp); [simpl in Hn; lia|].
        split; [exact Hc|]. exists (String c1 p).
        rewrite append_cons. now rewrite <- Hp. }
      destruct t1 as [|c2 t2].
      { apply Hstay. cbn [spaceAtHead]. now rewrite E1. }
      destruct (isSpace2 c1 c2) eqn:E2.
      { destruct (IH t2) as (Hc & p & Hp); [simpl in Hn; lia|].
        split; [exact Hc|]. exists (String c1 (String c2 p)).
        rewrite !append_cons. now rewrite <- Hp. }
      destruct t2 as [|c3 t3].
      { apply Hstay. cbn [spaceAtHead]. now rewrite E1, E2. }
      destruct (isSpace3 c1 c2 c3) eqn:E3.
      { destruct (IH t3) as (Hc & p & Hp); [simpl in Hn; lia|].
        split; [exact Hc|]. exists (String c1 (String c2 (String c3 p))).
        rewrite !append_cons. now rewrite <- Hp. }
      apply Hstay. cbn [spaceAtHead]. now rewrite E1, E2, E3. }
  now apply (H (String.length s)).
Qed.

Lemma trimSpaceRev_clean s :
  spaceAtHeadRev (trimSpaceRev s) = false
  /\ exists p, s = p +:+ trimSpaceRev s.
Proof.
  assert (H : forall n s, String.length s <= n ->
                spaceAtHeadRev (trimSpaceRev s) = false
                /\ exists p, s = p +:+ trimSpaceRev s).
  { clear s. induction n as [|n IH]; intros s Hn.
    - destruct s; [|simpl in Hn; lia]. split; [reflexivity|].
      now exists EmptyString.
    - assert (Hstay : forall t, spaceAtHeadRev t = false ->
                spaceAtHeadRev t = false /\ exists p, t = p +:+ t).
      { intros t Ht. split; [exact Ht|]. now exists EmptyString. }
      destruct s as [|c1 t1]; [now apply Hstay|].
      cbn [trimSpaceRev]. destruct (isSpace1 c1) eqn:E1.
      { destruct (IH t1) as (Hc & p & Hp); [simpl in Hn; lia|].
        split; [exact Hc|]. exists (String c1 p).
        rewrite append_cons. now rewrite <- Hp. }
      destruct t1 as [|c2 t2].
      { apply Hstay. cbn [spaceAtHeadRev]. now rewrite E1. }
      destruct (isSpace2 c2 c1) eqn:E2.
      { destruct (IH t2) as (Hc & p & Hp); [simpl in Hn; lia|].
        split; [exact Hc|]. exists (String c1 (String c2 p)).
        rewrite !append_cons. now rewrite <- Hp. }
      destruct t2 as [|c3 t3].
      { apply Hstay. cbn [spaceAtHeadRev]. now rewrite E1, E2. }
      destruct (isSpace3 c3 c2 c1) eqn:E3.
      { destruct (IH t3) as (Hc & p & Hp); [simpl in Hn; lia|].
        split; [exact Hc|]. exists (String c1 (String c2 (String c3 p))).
        rewrite !append_cons. now rewrite <- Hp. }
      apply Hstay. cbn [spaceAtHeadRev]. now rewrite E1, E2, E3. }
  now apply (H (String.length s)).
Qed.

(** A string that starts with no white space has no prefix that does. *)
Lemma spaceAtHead_prefix a b :
  spaceAtHead (a +:+ b) = false -> spaceAtHead a = false.
Proof.
  destruct a as [|c1 [|c2 [|c3 a3]]]; [reflexivity|..];
    rewrite ?append_cons, ?append_nil; cbn [spaceAtHead]; intros H;
    case_spaces H; reflexivity.
Qed.

Lemma TrimSpace_clean s :
  spaceAtHead (TrimSpace s) = false /\ spaceAtEnd (TrimSpace s) = false.
Proof.
  unfold TrimSpace, trimRightSpace, spaceAtEnd.
  destruct (trimLeftSpace_clean s) as (Hl & _).
  destruct (trimSpaceRev_clean (String.rev (trimLeftSpace s))) as (Hr & p & Hp).
  split.
  - apply (spaceAtHead_prefix _ (String.rev p)).
    now rewrite <- rev_append, <- Hp, rev_involutive.
  - now rewrite rev_involutive.
Qed.

Lemma TrimSpace_fixed s :
  spaceAtHead s = false -> spaceAtEnd s = false -> TrimSpace s = s.
Proof.
  unfold TrimSpace, trimRightSpace, spaceAtEnd. intros Hl Hr.
  rewrite (spaceAtHead_fixed _ Hl), (spaceAtHeadRev_fixed _ Hr).
  apply rev_involutive.
Qed.

(** X5.  The body that is returned neither starts nor ends with a white
    space rune, whatever the parts wrote to it: trimming it again gives it
    back. *)
Theorem body_has_no_outer_white_space entity body urls :
  extractBodyAndURLs entity = Ok (body, urls) ->
  spaceAtHead body = false /\ spaceAtEnd body = false
  /\ TrimSpace body = body.
Proof.
  intros H. apply extract_collect in H as (bodyBuilder & raw & _ & -> & _).
  destruct (TrimSpace_clean bodyBuilder) as (Hl & Hr).
  split; [exact Hl|]. split; [exact Hr|]. now apply TrimSpace_fixed.
Qed.

(* ===================================================================== *)
(** ** The records of an mbox *)
(* ===================================================================== *)

Lemma messageStep_recordOf next :
  messageStep [] next = match recordOf next with Some r => [r] | None => [] end.
Proof.
  unfold messageStep, recordOf. destruct next as [err|rawMessage]; [reflexivity|].
  destruct (Parse rawMessage) as [parsedEmail|err]; [|reflexivity].
  now destruct (Analyze parsedEmail).
Qed.

Lemma length_omap_le {A B : Type} (f : A -> option B) (l : list A) :
  length (omap f l) <= length l.
Proof.
  induction l as [|a l IH]; [reflexivity|]. csimpl.
  destruct (f a); simpl; lia.
Qed.

Lemma processMessages_omap messages :
  processMessages messages = omap recordOf messages.
Proof.
  induction messages as [|next l IH]; [reflexivity|].
  change (next :: l) with ([next] ++ l).
  rewrite processMessages_app, IH. unfold processMessages at 1. simpl.
  rewrite messageStep_recordOf. now destruct (recordOf next).
Qed.

(** X6.  The mbox loop gives the records of the messages that are read,
    parsed and analysed without error, in the order of the mbox and one
    for each: never more records than messages, and the records of an mbox
    followed by further messages are its records followed by theirs. *)
Theorem mbox_records_follow_the_messages messages :
  processMessages messages = omap recordOf messages
  /\ length (processMessages messages) <= length messages
  /\ (forall after,
        processMessages (messages ++ after) =
          processMessages messages ++ processMessages after).
Proof.
  split; [apply processMessages_omap|]. split.
  - rewrite processMessages_omap. apply length_omap_le.
  - intros after. apply processMessages_app.
Qed.

(* ===================================================================== *)
(** ** The message identifier *)
(* ===================================================================== *)

Lemma TrimLeft_startsIn s cutset : startsIn (TrimLeft s cutset) cutset = false.
Proof.
  induction s as [|c s IH]; [reflexivity|]. simpl.
  destruct (inCutset c cutset) eqn:E; [exact IH|]. simpl. exact E.
Qed.

Lemma TrimLeft_fixed s cutset :
  startsIn s cutset = false -> TrimLeft s cutset = s.
Proof. destruct s as [|c s]; [reflexivity|]. simpl. now intros ->. Qed.

Lemma TrimRight_startsIn s cutset :
  startsIn s cutset = false -> startsIn (TrimRight s cutset) cutset = false.
Proof.
  destruct s as [|c s]; [reflexivity|]. intros H.
  rewrite TrimRight_keeps by exact H. exact H.
Qed.

Lemma Parse_MessageID_trimmed r parsedEmail :
  Parse r = Ok parsedEmail ->
  startsIn (MessageID parsedEmail) "<> " = false
  /\ endsIn (MessageID parsedEmail) "<> " = false.
Proof.
  unfold Parse. destruct (message_Read r) as [entity|err]; [|discriminate].
  destruct (extractBodyAndURLs entity) as [[body urls]|err]; [|discriminate].
  intros [= <-]. cbn [MessageID]. split.
  - apply TrimRight_startsIn, TrimLeft_startsIn.
  - apply TrimRight_endsIn.
Qed.

(** X7.  The message identifier of a parsed email neither starts nor ends
    with an angle bracket or a space: all of them are cut from both ends,
    not only one pair, and cutting again changes nothing.  So it is for
    the identifier of every record of an mbox. *)
Theorem message_id_has_no_brackets r parsedEmail :
  Parse r = Ok parsedEmail ->
  startsIn (MessageID parsedEmail) "<> " = false
  /\ endsIn (MessageID parsedEmail) "<> " = false
  /\ Trim (MessageID parsedEmail) "<> " = MessageID parsedEmail
  /\ (forall messages record,
        record ∈ processMessages messages ->
        startsIn (Result_MessageID record) "<> " = false
        /\ endsIn (Result_MessageID record) "<> " = false).
Proof.
  intros H. destruct (Parse_MessageID_trimmed _ _ H) as [Hs He].
  split; [exact Hs|]. split; [exact He|]. split.
  - unfold Trim. rewrite (TrimLeft_fixed _ _ Hs). now apply TrimRight_fixed.
  - intros messages record Hr.
    rewrite processMessages_omap in Hr.
    apply list_elem_of_omap in Hr as (next & _ & Hn).
    unfold recordOf in Hn. destruct next as [err|rawMessage]; [discriminate|].
    destruct (Parse rawMessage) as [p|err] eqn:Hp; [|discriminate].
    destruct (Analyze p) as [j|err]; [|discriminate].
    injection Hn as <-. cbn [resultOf Result_MessageID].
    apply (Parse_MessageID_trimmed _ _ Hp).
Qed.

(* ===================================================================== *)
(** ** Parts and entities that are passed over *)
(* ===================================================================== *)

Lemma skippedPart_step st next :
  skippedPart next = true -> partStep st next = st.
Proof.
  unfold skippedPart, partStep. destruct next as [err|part]; [reflexivity|].
  destruct (Part_ContentType part) as [[mt ps]|err]; [|reflexivity].
  destruct (Part_ReadAll part) as [content [err|]]; [reflexivity|].
  intros H. apply negb_true_iff in H. now rewrite H.
Qed.

(** X8.  A child of a multipart entity that cannot be read, whose content
    type cannot be parsed or whose media type is neither text/plain nor
    text/html leaves no trace: wherever it stands among the parts, the body
    and the URL list are those of the entity without it. *)
Theorem skipped_part_leaves_no_trace entity mediaType params before next after :
  Header_ContentType (Entity_Header entity) = Ok (mediaType, params) ->
  HasPrefix mediaType "multipart/" = true ->
  index params "boundary" <> EmptyString ->
  NextParts (Entity_Body entity) (index params "boundary")
    = before ++ next :: after ->
  skippedPart next = true ->
  extractBodyAndURLs entity =
    extractBodyAndURLs
      (withEntityBody entity
         {| ReadAll := ReadAll (Entity_Body entity);
            NextParts := fun _ => before ++ after |}).
Proof.
  intros Hct Hmp Hb Hparts Hskip. unfold extractBodyAndURLs.
  rewrite (collect_multipart _ _ _ Hct Hmp).
  rewrite (collect_multipart (withEntityBody entity _) _ _ Hct Hmp).
  apply String.eqb_neq in Hb. rewrite Hb, Hparts. simpl.
  rewrite !fold_left_app. simpl.
  now rewrite (skippedPart_step _ _ Hskip).
Qed.

(** X9.  An entity whose media type is neither multipart nor text/plain
    nor text/html gives an empty body and no URL, and its body is never
    read: [Parse] returns its record even when the read would fail. *)
Theorem other_media_type_gives_empty_body entity mediaType params :
  Header_ContentType (Entity_Header entity) = Ok (mediaType, params) ->
  HasPrefix mediaType "multipart/" = false ->
  mediaType <> "text/plain" ->
  mediaType <> "text/html" ->
  extractBodyAndURLs entity = Ok (EmptyString, [])
  /\ (forall r,
        message_Read r = Ok entity ->
        exists parsedEmail,
          Parse r = Ok parsedEmail
          /\ Body_ parsedEmail = EmptyString /\ URLs parsedEmail = []).
Proof.
  intros Hct Hmp Hp Hh.
  assert (He : extractBodyAndURLs entity = Ok (EmptyString, [])).
  { unfold extractBodyAndURLs, collect. rewrite Hct, Hmp.
    apply String.eqb_neq in Hp, Hh. now rewrite Hp, Hh. }
  split; [exact He|].
  intros r Hr. unfold Parse. rewrite Hr, He. now eexists.
Qed.

(** X10.  When the Content-Type field cannot be parsed, the entity is read
    as text/plain without parameters: nothing is decoded and no tag is
    stripped, whatever the field said. *)
Theorem unparsable_content_type_is_plain_text entity err :
  Header_ContentType (Entity_Header entity) = Err err ->
  extractBodyAndURLs entity =
    extractBodyAndURLs (withContentType entity (Ok ("text/plain", ∅)))
  /\ (forall content,
        ReadAll (Entity_Body entity) = (content, None) ->
        extractBodyAndURLs entity =
          Ok (TrimSpace content,
              uniqueURLs (FindAllStringSubmatch1 hrefRegex content
                          ++ FindAllString urlRegex content))).
Proof.
  intros Hct. split.
  - unfold extractBodyAndURLs, collect. simpl. now rewrite Hct.
  - intros content Hr. unfold extractBodyAndURLs, collect.
    rewrite Hct, Hr. reflexivity.
Qed.

(* ===================================================================== *)
(** ** A charset of the switch *)
(* ===================================================================== *)

Lemma decodeCharset_decodes content charset decoder decoded :
  (ToLower charset, decoder) ∈ decoderTable ->
  transformBytes decoder content = Ok decoded ->
  decodeCharset content charset = Ok decoded.
Proof.
  intros Hin Ht. unfold decodeCharset, decoderTable in *.
  repeat (apply elem_of_cons in Hin as [[= -> <-] | Hin];
          [simpl; now rewrite Ht|]).
  now apply elem_of_nil in Hin.
Qed.

(** X11.  A declared charset whose lower-cased label is one of the five of
    the switch, and whose decoder accepts the content, is decoded before
    anything else: the entity or part is then processed as one that holds
    the decoded text and declares no charset. *)
Theorem declared_charset_is_decoded content charset decoder decoded :
  charset <> EmptyString ->
  (ToLower charset, decoder) ∈ decoderTable ->
  transformBytes decoder content = Ok decoded ->
  decodeCharset content charset = Ok decoded
  /\ decodeDeclared content charset = decoded
  /\ (forall h mediaType params,
        index params "charset" = charset ->
        String.eqb mediaType "text/plain" || String.eqb mediaType "text/html" = true ->
        extractBodyAndURLs (leafEntity h (Ok (mediaType, params)) (content, None)) =
          extractBodyAndURLs
            (leafEntity h (Ok (mediaType, delete "charset" params)) (decoded, None)))
  /\ (forall st mediaType params,
        index params "charset" = charset ->
        partStep st (NextPartOk (mkPart (Ok (mediaType, params)) (content, None))) =
          partStep st
            (NextPartOk
               (mkPart (Ok (mediaType, delete "charset" params)) (decoded, None)))).
Proof.
  intros Hne Hin Ht.
  pose proof (decodeCharset_decodes _ _ _ _ Hin Ht) as Hd.
  assert (Hdd : decodeDeclared content charset = decoded).
  { unfold decodeDeclared. apply String.eqb_neq in Hne. now rewrite Hne, Hd. }
  split; [exact Hd|]. split; [exact Hdd|]. split.
  - intros h mediaType params Hc Htext. unfold extractBodyAndURLs.
    rewrite !(collect_text_leaf _ _ _ _ Htext).
    now rewrite index_delete_charset, decodeDeclared_undeclared, Hc, Hdd.
  - intros st mediaType params Hc. unfold partStep. simpl.
    now rewrite index_delete_charset, decodeDeclared_undeclared, Hc, Hdd.
Qed.

(* ===================================================================== *)
(** ** The prompt *)
(* ===================================================================== *)

Section AnalyzerProperties.

Variable Header_Text : mail_Header -> string -> string * option error.
Variable AnalyzeText : string -> result Judgment.

Lemma length_fold_urls urls builder :
  String.length
    (fold_left (fun builder u => builder +:+ (u +:+ LF)) urls builder) =
  String.length builder
  + list_sum (map (fun u => String.length u + 1) urls).
Proof.
  revert builder. induction urls as [|u urls IH]; intros builder.
  - simpl. lia.
  - simpl. rewrite IH, !length_append. simpl. lia.
Qed.

(** X12.  Whatever the length of the body, at most 4016 bytes of the
    prompt come from it: a body of up to 4000 bytes stands in the prompt
    whole, a longer one adds its first 4000 bytes and the 16 bytes of the
    truncation mark. *)
Theorem prompt_takes_4000_bytes_of_the_body email body :
  String.length (buildPrompt Header_Text (withBody email body)) =
    String.length (buildPrompt Header_Text (withBody email EmptyString))
    + (if Nat.ltb 4000 (String.length body) then 4016 else String.length body).
Proof.
  unfold buildPrompt, withBody. cbn [Body_ From To Subject URLs Header].
  change (Nat.ltb 4000 (String.length EmptyString)) with false. cbv iota.
  destruct (Nat.ltb_spec 4000 (String.length body)) as [Hlong|Hshort];
    destruct (From email) as [|from froms];
    destruct (To email) as [|to tos];
    destruct (Header_Text (Header email) "Return-Path") as [returnPath [e1|]];
    destruct (Header_AddressList (Header email) "Reply-To") as [replyTo [e2|]];
    destruct (URLs email) as [|u urls];
    cbv iota;
    rewrite !length_append, ?length_fold_urls, ?length_append,
      ?length_substring_0;
    change (String.length LF) with 1;
    change (String.length "... (truncated)") with 15;
    change (String.length EmptyString) with 0;
    lia.
Qed.

(** X13.  Two bodies of more than 4000 bytes that agree on their first
    4000 bytes give the same prompt, and so the same answer of the
    provider: nothing past the 4000th byte of a body reaches the model. *)
Theorem prompt_ignores_the_body_past_4000_bytes email body1 body2 :
  4000 < String.length body1 ->
  4000 < String.length body2 ->
  substring 0 4000 body1 = substring 0 4000 body2 ->
  buildPrompt Header_Text (withBody email body1) =
    buildPrompt Header_Text (withBody email body2)
  /\ EmailAnalyzer_Analyze Header_Text AnalyzeText (withBody email body1) =
       EmailAnalyzer_Analyze Header_Text AnalyzeText (withBody email body2).
Proof.
  intros H1 H2 Hsame.
  assert (H : buildPrompt Header_Text (withBody email body1) =
              buildPrompt Header_Text (withBody email body2)).
  { unfold buildPrompt, withBody. cbn [Body_ From To Subject URLs Header].
    apply Nat.ltb_lt in H1, H2. now rewrite H1, H2, Hsame. }
  split; [exact H|]. unfold EmailAnalyzer_Analyze. now rewrite H.
Qed.

Lemma fold_urls_append urls builder :
  fold_left (fun builder u => builder +:+ (u +:+ LF)) urls builder =
    builder
    +:+ fold_left (fun builder u => builder +:+ (u +:+ LF)) urls EmptyString.
Proof.
  revert builder. induction urls as [|u urls IH]; intros builder.
  - simpl. now rewrite append_empty_r.
  - simpl. rewrite IH, (IH (EmptyString +:+ _)), append_nil, append_assoc.
    reflexivity.
Qed.

Lemma fold_urls_line urls builder u :
  u ∈ urls ->
  exists x y,
    fold_left (fun builder u => builder +:+ (u +:+ LF)) urls (builder +:+ LF) =
      x +:+ (LF +:+ u +:+ LF) +:+ y.
Proof.
  revert builder. induction urls as [|v urls IH]; intros builder H.
  - now apply elem_of_nil in H.
  - simpl. apply elem_of_cons in H as [<- | H].
    + rewrite fold_urls_append. eexists builder, _.
      rewrite !append_assoc. reflexivity.
    + rewrite append_assoc, <- (append_assoc LF v LF), <- append_assoc.
      apply (IH _ H).
Qed.

(** X14.  Every URL of the list reaches the prompt whole, on a line of its
    own: the list is not cut as the body is. *)
Theorem prompt_lists_every_url email u :
  u ∈ URLs email ->
  Contains (buildPrompt Header_Text email) (LF +:+ u +:+ LF) = true.
Proof.
  intros Hu. unfold buildPrompt.
  destruct (URLs email) as [|v urls] eqn:E; [now apply elem_of_nil in Hu|].
  match goal with
  | |- context [fold_left ?f (v :: urls) (?b +:+ LF +:+ LF +:+ ?h +:+ LF)] =>
      replace (b +:+ LF +:+ LF +:+ h +:+ LF)
        with ((b +:+ LF +:+ LF +:+ h) +:+ LF)
        by (now rewrite !append_assoc);
      destruct (fold_urls_line (v :: urls) (b +:+ LF +:+ LF +:+ h) u Hu)
        as (x & y & ->)
  end.
  set (line := LF +:+ u +:+ LF).
  rewrite !append_assoc. apply Contains_infix.
Qed.

End AnalyzerProperties.

(* ===================================================================== *)
(** ** The configuration *)
(* ===================================================================== *)

Section LoadProperties.

Variable os_Open : string -> result string.
Variable os_IsNotExist : error -> bool.
Variable json_Decode : string -> Config -> result Config.
Variable envconfig_Process : Config -> result Config.

(** X15.  A configuration that is returned always names a model: when
    neither the file nor the environment gives one, it is gpt-4-turbo, and
    the other fields are as the environment left them. *)
Theorem Load_always_names_a_model path cfg :
  Load os_Open os_IsNotExist json_Decode envconfig_Process path = Ok cfg ->
  ModelName cfg <> EmptyString
  /\ exists fromFile fromEnv,
       envconfig_Process fromFile = Ok fromEnv
       /\ OpenAIAPIKey cfg = OpenAIAPIKey fromEnv
       /\ OpenAIBaseURL cfg = OpenAIBaseURL fromEnv
       /\ ModelName cfg =
            if String.eqb (ModelName fromEnv) EmptyString
            then "gpt-4-turbo" else ModelName fromEnv.
Proof.
  unfold Load.
  destruct (if negb (String.eqb path EmptyString) then _ else _)
    as [fromFile|err]; [|discriminate].
  destruct (envconfig_Process fromFile) as [fromEnv|err] eqn:He; [|discriminate].
  destruct (String.eqb_spec (ModelName fromEnv) EmptyString) as [E|E];
    intros [= <-]; (split; [|exists fromFile, fromEnv]); simpl;
    try rewrite E; auto; try discriminate.
  apply String.eqb_neq in E. rewrite E. auto.
Qed.

(** X16.  A path to a file that does not exist is no error: the
    configuration is the one of the empty path, read from the environment
    alone.  Any other error of the open is returned as it is. *)
Theorem Load_without_the_file path err :
  os_Open path = Err err ->
  (os_IsNotExist err = true ->
   Load os_Open os_IsNotExist json_Decode envconfig_Process path =
     Load os_Open os_IsNotExist json_Decode envconfig_Process EmptyString)
  /\ (os_IsNotExist err = false ->
      path <> EmptyString ->
      Load os_Open os_IsNotExist json_Decode envconfig_Process path = Err err).
Proof.
  intros Ho. unfold Load. split.
  - intros Hn. rewrite Ho, Hn. simpl. now destruct (String.eqb path EmptyString).
  - intros Hn Hp. apply String.eqb_neq in Hp. rewrite Hp, Ho, Hn. reflexivity.
Qed.

End LoadProperties.

(* ===================================================================== *)
(** ** Tags after the stripping *)
(* ===================================================================== *)

(** The lazy run of the tag pattern finds the first closing bracket of the
    line, if the line has one. *)
Lemma tag_search s pos :
  starLazy dot s pos
    (fun s1 p1 =>
       exec (Chr ">") s1 p1 (@None (nat * nat)) (fun _ n cap => Some (n, cap))) =
    None
  <-> closesOnLine s = false.
Proof.
  revert pos. induction s as [|c s IH]; intros pos; [easy|].
  cbn [starLazy exec closesOnLine].
  destruct (Ascii.eqb c ">"); [easy|].
  unfold dot. destruct (isByte c 10); [easy|]. apply IH.
Qed.

Lemma tag_search_length s pos x :
  starLazy dot s pos
    (fun s1 p1 =>
       exec (Chr ">") s1 p1 (@None (nat * nat)) (fun _ n cap => Some (n, cap))) =
    Some x ->
  exists n, x = (S n, None).
Proof.
  revert pos. induction s as [|c s IH]; intros pos; [easy|].
  cbn [starLazy exec].
  destruct (Ascii.eqb c ">"); [intros [= <-]; now eexists|].
  destruct (dot c); [apply IH | easy].
Qed.

Lemma tag_no_match c s :
  Ascii.eqb c "<" && closesOnLine s = false ->
  matchAt tagRegex (String c s) = None.
Proof.
  unfold matchAt, tagRegex. cbn [exec].
  destruct (Ascii.eqb c "<"); [|reflexivity]. simpl andb.
  intros H. now apply tag_search.
Qed.

Lemma tag_match c s :
  Ascii.eqb c "<" && closesOnLine s = true ->
  exists n, matchAt tagRegex (String c s) = Some (S n, None).
Proof.
  unfold matchAt, tagRegex. cbn [exec].
  destruct (Ascii.eqb c "<"); [|discriminate]. simpl andb. intros H.
  destruct (starLazy dot s 1 _) as [x|] eqn:E.
  - apply tag_search_length in E as (n & ->). now exists n.
  - apply tag_search in E. congruence.
Qed.

(** An opening bracket that finds no closing bracket on its line finds
    none after the stripping either. *)
Lemma replaceAll_keeps_open s :
  closesOnLine s = false ->
  closesOnLine (replaceAll tagRegex " " s 0) = false.
Proof.
  induction s as [|c s IH]; [reflexivity|].
  cbn [closesOnLine]. intros H.
  destruct (Ascii.eqb_spec c ">") as [->|Hc]; [discriminate|].
  assert (Hs : isByte c 10 = true \/ closesOnLine s = false).
  { destruct (isByte c 10); auto. }
  assert (Hm : matchAt tagRegex (String c s) = None).
  { apply tag_no_match. destruct Hs as [Hs|Hs].
    - unfold isByte in Hs. apply Ascii.eqb_eq in Hs. now subst c.
    - rewrite Hs. apply andb_false_r. }
  cbn [replaceAll]. rewrite Hm. cbn [closesOnLine].
  apply Ascii.eqb_neq in Hc. rewrite Hc.
  destruct (isByte c 10); [reflexivity|].
  destruct Hs as [Hs|Hs]; [discriminate|]. now apply IH.
Qed.

Lemma replaceAll_no_tag s skip :
  hasLineTag (replaceAll tagRegex " " s skip) = false.
Proof.
  revert skip. induction s as [|c s IH]; intros skip; [reflexivity|].
  cbn [replaceAll]. destruct skip as [|k]; [|apply IH].
  destruct (Ascii.eqb c "<" && closesOnLine s) eqn:E.
  - apply tag_match in E as (n & ->).
    rewrite append_cons, append_nil. cbn [hasLineTag]. apply IH.
  - rewrite (tag_no_match _ _ E). cbn [hasLineTag]. rewrite IH, orb_false_r.
    destruct (Ascii.eqb c "<"); [|reflexivity]. simpl in *.
    now apply replaceAll_keeps_open.
Qed.

Lemma closesOnLine_append a b :
  closesOnLine a = true -> closesOnLine (a +:+ b) = true.
Proof.
  induction a as [|c a IH]; [discriminate|].
  rewrite append_cons. cbn [closesOnLine].
  destruct (Ascii.eqb c ">"); [reflexivity|].
  destruct (isByte c 10); [discriminate | exact IH].
Qed.

Lemma hasLineTag_append a b :
  hasLineTag (a +:+ b) = false ->
  hasLineTag a = false /\ hasLineTag b = false.
Proof.
  induction a as [|c a IH]; [now rewrite append_nil|].
  rewrite append_cons. cbn [hasLineTag]. intros H.
  apply orb_false_iff in H as [Hc H]. apply IH in H as [Ha Hb].
  split; [|exact Hb]. rewrite Ha, orb_false_r.
  destruct (Ascii.eqb c "<"); [|reflexivity]. simpl in *.
  destruct (closesOnLine a) eqn:E; [|reflexivity].
  now rewrite (closesOnLine_append _ b E) in Hc.
Qed.

(** What [TrimSpace] returns stands in the string it was given. *)
Lemma TrimSpace_infix s : exists p q, s = p +:+ TrimSpace s +:+ q.
Proof.
  unfold TrimSpace, trimRightSpace.
  destruct (trimLeftSpace_clean s) as (_ & p & Hp).
  destruct (trimSpaceRev_clean (String.rev (trimLeftSpace s))) as (_ & q & Hq).
  exists p, (String.rev q).
  now rewrite <- rev_append, <- Hq, rev_involutive.
Qed.

Lemma findAll_no_tag s skip :
  hasLineTag s = false -> findAll tagRegex s skip = [].
Proof.
  revert skip. induction s as [|c s IH]; intros skip; [reflexivity|].
  cbn [hasLineTag findAll]. intros H. apply orb_false_iff in H as [Hc H].
  destruct skip as [|k]; [|now apply IH].
  rewrite (tag_no_match _ _ Hc). now apply IH.
Qed.

Lemma replaceAll_fixed s repl :
  hasLineTag s = false -> replaceAll tagRegex repl s 0 = s.
Proof.
  induction s as [|c s IH]; [reflexivity|].
  cbn [hasLineTag replaceAll]. intros H. apply orb_false_iff in H as [Hc H].
  rewrite (tag_no_match _ _ Hc). now rewrite IH.
Qed.

(** X17.  The body of a text/html entity holds no tag that opens and
    closes on one line: every opening angle bracket left in it is followed
    by a line feed, or by the end of the body, before any closing one.  The
    tag pattern finds nothing in it, and stripping it again gives it
    back. *)
Theorem html_body_keeps_no_tag_on_one_line entity params body urls :
  Header_ContentType (Entity_Header entity) = Ok ("text/html", params) ->
  extractBodyAndURLs entity = Ok (body, urls) ->
  hasLineTag body = false
  /\ FindAllString tagRegex body = []
  /\ ReplaceAllString tagRegex body " " = body.
Proof.
  intros Hct H.
  assert (Hb : hasLineTag body = false).
  { apply extract_collect in H as (bodyBuilder & raw & Hc & -> & _).
    unfold collect in Hc. rewrite Hct in Hc. simpl in Hc.
    destruct (ReadAll (Entity_Body entity)) as [content [err|]]; [discriminate|].
    injection Hc as <- _.
    destruct (TrimSpace_infix
                (ReplaceAllString tagRegex
                   (decodeDeclared content (index params "charset")) " "))
      as (p & q & Hpq).
    pose proof (replaceAll_no_tag
                  (decodeDeclared content (index params "charset")) 0) as Hn.
    fold (ReplaceAllString tagRegex
            (decodeDeclared content (index params "charset")) " ") in Hn.
    rewrite Hpq in Hn.
    apply hasLineTag_append in Hn as [_ Hn].
    now apply hasLineTag_append in Hn as [Hn _]. }
  split; [exact Hb|]. split.
  - unfold FindAllString. now rewrite findAll_no_tag.
  - now apply replaceAll_fixed.
Qed.

(* ===================================================================== *)
(** ** The answer of the provider *)
(* ===================================================================== *)

Lemma matches_Chr_inv c s : matches (Chr c) s -> s = String c EmptyString.
Proof. intros H. now inversion H. Qed.

(** The group of the tool request pattern is the text between the two
    markers. *)
Lemma toolRequest_capture content group :
  FindStringSubmatch1 toolRequestRegex content = Some group ->
  exists a b,
    content =
      a +:+ "[TOOL_REQUEST]" +:+ group +:+ "[END_TOOL_REQUEST]" +:+ b.
Proof.
  unfold FindStringSubmatch1.
  destruct (findAll toolRequestRegex content 0) as [|[m g] l] eqn:Hf;
    [discriminate|].
  intros [= ->].
  assert (H : (m, group) ∈ findAll toolRequestRegex content 0).
  { rewrite Hf. apply list_elem_of_here. }
  apply findAll_elem in H as (pre & s' & n & cap & -> & Hm & _ & ->).
  unfold matchAt, toolRequestRegex in Hm. cbn [Lit] in Hm.
  apply (exec_Cat_peel _ _ s' EmptyString) in Hm as (s1 & s2 & c1 & Hc & E & Hm);
    [|reflexivity].
  apply matches_Chr_inv in Hc. subst s1.
  do 13 (apply (exec_Cat_peel _ _ s' _ _ _ _ _ E) in Hm;
         clear E; destruct Hm as (? & ? & ? & Hc & E & Hm);
         apply matches_Chr_inv in Hc;
         match type of Hc with ?v = _ => subst v end).
  apply (fun Hg => exec_group_then _ _ _ _ _ _ _ _ Hg E) in Hm
    as (_ & t & b & Ht & Hb); [|reflexivity].
  assert (t = "[END_TOOL_REQUEST]") as ->.
  { inv_matches. reflexivity. }
  exists pre, b. rewrite Hb at 1. reflexivity.
Qed.

Section ProviderProperties.

Variable unmarshalToolCall : string -> result string.
Variable unmarshalJudgment : string -> result Judgment.

Lemma standardToolCall_Ok apiResponse judgment :
  standardToolCall unmarshalJudgment apiResponse = Ok judgment ->
  exists choice rest toolCallArgs calls,
    Choices apiResponse = choice :: rest
    /\ ToolCalls choice = toolCallArgs :: calls
    /\ unmarshalJudgment toolCallArgs = Ok judgment.
Proof.
  unfold standardToolCall.
  destruct (Choices apiResponse) as [|choice rest]; [discriminate|].
  destruct (ToolCalls choice) as [|toolCallArgs calls] eqn:Ht; [discriminate|].
  destruct (unmarshalJudgment toolCallArgs) as [j|err] eqn:E; [|discriminate].
  intros [= <-]. now exists choice, rest, toolCallArgs, calls.
Qed.

(** X18.  A judgment is only returned for a response without an error
    object that has a first choice with content or tool calls, and it is
    what [json.Unmarshal] made of some argument string: an error object
    wins over whatever the choices hold, and nothing is made up. *)
Theorem judgment_needs_a_clean_response apiResponse judgment :
  judgmentOf unmarshalToolCall unmarshalJudgment apiResponse = Ok judgment ->
  Error apiResponse = None
  /\ (exists choice rest,
        Choices apiResponse = choice :: rest
        /\ (Content choice <> EmptyString \/ ToolCalls choice <> []))
  /\ exists arguments, unmarshalJudgment arguments = Ok judgment.
Proof.
  unfold judgmentOf.
  destruct (Error apiResponse) as [apiError|]; [discriminate|].
  intros H. split; [reflexivity|].
  assert (Hstd : standardToolCall unmarshalJudgment apiResponse = Ok judgment ->
                 (exists choice rest,
                    Choices apiResponse = choice :: rest
                    /\ (Content choice <> EmptyString \/ ToolCalls choice <> []))
                 /\ exists arguments, unmarshalJudgment arguments = Ok judgment).
  { intros Hs.
    apply standardToolCall_Ok in Hs as (choice & rest & args & calls & Hc & Ht & Hj).
    split; [|now exists args].
    exists choice, rest. split; [exact Hc|]. right. now rewrite Ht. }
  destruct (Choices apiResponse) as [|choice rest] eqn:Hc; [now apply Hstd|].
  destruct (String.eqb_spec (Content choice) EmptyString) as [He|He];
    simpl negb in H; cbv iota in H; [now apply Hstd|].
  assert (Hcontent : exists choice0 rest0,
                       choice :: rest = choice0 :: rest0
                       /\ (Content choice0 <> EmptyString \/ ToolCalls choice0 <> [])).
  { exists choice, rest. auto. }
  destruct (FindStringSubmatch1 toolRequestRegex (Content choice)) as [group|].
  - destruct (unmarshalToolCall (TrimSpace group)) as [arguments|err];
      [|discriminate].
    destruct (unmarshalJudgment arguments) as [j|err] eqn:Hj; [|discriminate].
    injection H as <-. split; [exact Hcontent|]. now exists arguments.
  - destruct (unmarshalToolCall (TrimSpace (Content choice))) as [arguments|err];
      [|now apply Hstd].
    destruct (unmarshalJudgment arguments) as [j|err] eqn:Hj; [|now apply Hstd].
    injection H as <-. split; [exact Hcontent|]. now exists arguments.
Qed.

(** X19.  When the content of the first choice holds a tool request block,
    the answer is read from the text between its markers and from nothing
    else: the tool calls of the response are never looked at, so a block
    that cannot be read is an error even when they could be. *)
Theorem tool_request_block_is_final apiResponse choice rest group :
  Error apiResponse = None ->
  Choices apiResponse = choice :: rest ->
  FindStringSubmatch1 toolRequestRegex (Content choice) = Some group ->
  (exists a b,
     Content choice =
       a +:+ "[TOOL_REQUEST]" +:+ group +:+ "[END_TOOL_REQUEST]" +:+ b)
  /\ (forall calls,
        judgmentOf unmarshalToolCall unmarshalJudgment
          (withToolCalls apiResponse calls) =
          judgmentOf unmarshalToolCall unmarshalJudgment apiResponse)
  /\ (forall err,
        unmarshalToolCall (TrimSpace group) = Err err ->
        judgmentOf unmarshalToolCall unmarshalJudgment apiResponse =
          Err (Wrapf "could not unmarshal tool call response" err)).
Proof.
  intros He Hc Hg. split; [now apply toolRequest_capture|].
  assert (Hne : negb (String.eqb (Content choice) EmptyString) = true).
  { destruct (Content choice); [discriminate Hg | reflexivity]. }
  split.
  - intros calls. unfold judgmentOf, withToolCalls. simpl.
    rewrite He, Hc. simpl. now rewrite Hne, Hg.
  - intros err Hu. unfold judgmentOf. now rewrite He, Hc, Hne, Hg, Hu.
Qed.

End ProviderProperties.

End Engine.

(* ===================================================================== *)
(** ** The library models on samples *)
(* ===================================================================== *)

Example href_sample :
  FindAllStringSubmatch1 hrefRegex
    ("<a href = " +:+ String dq "http://a.example/x" +:+ String dq ">A</a> <a href=" +:+
     String sq "https://b.example" +:+ String sq ">B</a>")
  = ["http://a.example/x"; "https://b.example"].
Proof. vm_compute. reflexivity. Qed.

Example url_sample :
  FindAllString urlRegex "see http://a.example/p?q=1, and (https://b.example/)."
  = ["http://a.example/p?q=1"; "https://b.example/"].
Proof. vm_compute. reflexivity. Qed.

Example tag_sample :
  ReplaceAllString tagRegex "a<b>c</b><br/>d > e <" " " = "a c  d > e <".
Proof. vm_compute. reflexivity. Qed.

Example trim_sample :
  TrimSpace (String (byte 194) (String (byte 160) "  x y ")) = "x y"
  /\ Trim "< <id@x> >" "<> " = "id@x"
  /\ TrimRight "http://a.example/?)." ".?!,;)" = "http://a.example/"
  /\ Join (Fields " Hello  This is a  link . ") " " = "Hello This is a link .".
Proof. vm_compute. repeat split; reflexivity. Qed.

Example dedup_sample :
  uniqueURLs (FindAllString urlRegex caseText) =
    ["http://A.example/x"; "http://a.example/x"; "http://a.example/x/"].
Proof. vm_compute. reflexivity. Qed.

(** [Parse] on a message whose From, To, Subject and Message-ID cannot be
    parsed: a record with empty fields and no error. *)
Example Parse_broken_fields :
  Parse asciiToLower sampleDecoder
    {| message_Read :=
         Ok (leafEntity brokenFields (Ok ("text/plain", ∅)) ("hello", None)) |} =
    Ok {| MessageID := EmptyString; From := []; To := []; Subject := EmptyString;
          Body_ := "hello"; URLs := [];
          Header := Entity_Header
                      (leafEntity brokenFields (Ok ("text/plain", ∅)) ("hello", None)) |}.
Proof. vm_compute. reflexivity. Qed.

(* ===================================================================== *)
(** ** The theorems on concrete messages *)
(* ===================================================================== *)

Lemma multipart_walks_direct_text_children_witness :
  Header_ContentType (Entity_Header (asEntity noFields flatMessage)) =
    Ok ("multipart/alternative", {[ "boundary" := "inner" ]})
  /\ HasPrefix "multipart/alternative" "multipart/" = true
  /\ index {[ "boundary" := "inner" ]} "boundary" <> EmptyString
  /\ extractBodyAndURLs asciiToLower sampleDecoder (asEntity noFields flatMessage) =
       Ok ("Plain leaf http://plain.example/a" +:+ LF +:+ " Html leaf  b",
           ["http://plain.example/a"; "http://html.example/b"]).
Proof.
  assert (Hb : index ({[ "boundary" := "inner" ]} : gmap string string) "boundary"
               <> EmptyString) by (vm_compute; discriminate).
  split; [reflexivity|]. split; [reflexivity|]. split; [exact Hb|].
  rewrite (proj1 (multipart_walks_direct_text_children asciiToLower sampleDecoder
                    (asEntity noFields flatMessage) _ _ eq_refl eq_refl Hb)).
  vm_compute. reflexivity.
Defined.

(** The nested message of section 8: the code finds no text child, so the
    body and the URL list are empty, while the tree has two text leaves. *)
Lemma nested_multipart_is_not_walked :
  extractBodyAndURLs asciiToLower sampleDecoder (asEntity noFields nestedMessage) =
    Ok (EmptyString, [])
  /\ map fst (textLeaves asciiToLower sampleDecoder nestedMessage) =
       ["text/plain"; "text/html"]
  /\ ~ walksNested asciiToLower sampleDecoder noFields nestedMessage.
Proof.
  split; [vm_compute; reflexivity|]. split; [vm_compute; reflexivity|].
  intros (body & urls & He & _ & Hu).
  vm_compute in He. injection He as <- <-.
  vm_compute in Hu. discriminate Hu.
Qed.

Lemma multipart_without_boundary_is_opaque_witness :
  Header_ContentType (Entity_Header noBoundaryMessage) =
    Ok ("multipart/mixed", {[ "charset" := "shift_jis" ]})
  /\ HasPrefix "multipart/mixed" "multipart/" = true
  /\ (({[ "charset" := "shift_jis" ]} : gmap string string) !! "boundary" = None
      \/ ({[ "charset" := "shift_jis" ]} : gmap string string) !! "boundary"
         = Some EmptyString)
  /\ extractBodyAndURLs asciiToLower sampleDecoder noBoundaryMessage =
       Ok ("--x see http://u.example/", []).
Proof.
  split; [reflexivity|]. split; [reflexivity|]. split; [left; reflexivity|].
  rewrite (proj1 (multipart_without_boundary_is_opaque asciiToLower sampleDecoder
                    noBoundaryMessage _ _ eq_refl eq_refl (or_introl eq_refl))).
  vm_compute. reflexivity.
Defined.

Lemma charset_failure_passes_through_witness :
  (decodeFails asciiToLower sampleDecoder notUTF8 "ISO-8859-1"
   /\ decodeDeclared asciiToLower sampleDecoder notUTF8 "ISO-8859-1" = notUTF8)
  /\ (decodeFails asciiToLower sampleDecoder notUTF8 "Shift_JIS"
      /\ decodeDeclared asciiToLower sampleDecoder notUTF8 "Shift_JIS" = notUTF8).
Proof.
  assert (H1 : decodeFails asciiToLower sampleDecoder notUTF8 "ISO-8859-1").
  { left. apply (bool_decide_unpack _). vm_compute. exact I. }
  assert (H2 : decodeFails asciiToLower sampleDecoder notUTF8 "Shift_JIS").
  { right. exists ShiftJIS, (LibError "encoding: invalid byte"). split.
    - vm_compute. repeat constructor.
    - vm_compute. reflexivity. }
  split; (split; [assumption|]).
  - exact (proj1 (proj2 (charset_failure_passes_through asciiToLower sampleDecoder
                           notUTF8 "ISO-8859-1" H1))).
  - exact (proj1 (proj2 (charset_failure_passes_through asciiToLower sampleDecoder
                           notUTF8 "Shift_JIS" H2))).
Defined.

Lemma utf8_or_undeclared_is_identity_witness :
  (("UTF-8" = EmptyString \/ asciiToLower "UTF-8" = "utf-8")
   /\ decodeDeclared asciiToLower sampleDecoder notUTF8 "UTF-8" = notUTF8)
  /\ ((EmptyString = EmptyString \/ asciiToLower EmptyString = "utf-8")
      /\ decodeDeclared asciiToLower sampleDecoder notUTF8 EmptyString = notUTF8).
Proof.
  split; (split; [first [right; reflexivity | left; reflexivity]|]).
  - exact (proj1 (utf8_or_undeclared_is_identity asciiToLower sampleDecoder
                    notUTF8 "UTF-8" (or_intror eq_refl))).
  - exact (proj1 (utf8_or_undeclared_is_identity asciiToLower sampleDecoder
                    notUTF8 EmptyString (or_introl eq_refl))).
Defined.

Lemma url_list_unique_in_first_seen_order_witness :
  extractBodyAndURLs asciiToLower sampleDecoder
    (leafEntity noFields (Ok ("text/plain", ∅)) (dedupText, None)) =
    Ok (dedupText, ["http://example.com"])
  /\ NoDup ["http://example.com"].
Proof.
  assert (H : extractBodyAndURLs asciiToLower sampleDecoder
                (leafEntity noFields (Ok ("text/plain", ∅)) (dedupText, None)) =
              Ok (dedupText, ["http://example.com"])) by (vm_compute; reflexivity).
  split; [exact H|].
  destruct (url_list_unique_in_first_seen_order asciiToLower sampleDecoder _ _ _ H)
    as (bodyBuilder & raw & _ & Hnd & _).
  exact Hnd.
Defined.

(** The harvest run again on its own output, in either mode and whether the
    URLs are read one by one or as the lines of one text, loses the URL
    that holds a space. *)
Lemma reharvest_changes_the_list :
  harvest false spacedHref = ["http://a.example/x y"; "http://a.example/x"]
  /\ reharvest false (harvest false spacedHref) = ["http://a.example/x"]
  /\ harvest false (Join (harvest false spacedHref) LF) = ["http://a.example/x"]
  /\ harvest true spacedHref = ["http://a.example/x y"]
  /\ reharvest true (harvest true spacedHref) = ["http://a.example/x"]
  /\ reharvest false (harvest false spacedHref) <> harvest false spacedHref.
Proof. repeat split; try (vm_compute; reflexivity). vm_compute. discriminate. Qed.

Lemma container_survives_bad_message_witness :
  Parse asciiToLower sampleDecoder (plainMessage "first") = Ok (plainParsed "first")
  /\ Parse asciiToLower sampleDecoder corruptedMessage =
       Err (Wrapf "failed to read message entity"
              (LibError "message: malformed MIME header line"))
  /\ Parse asciiToLower sampleDecoder (plainMessage "third") = Ok (plainParsed "third")
  /\ processMessages asciiToLower sampleDecoder string (fun _ => Ok "Safe") Address
       [ NextMessageOk (plainMessage "first"); NextMessageOk corruptedMessage;
         NextMessageOk (plainMessage "third") ] =
       [ resultOf string Address (plainParsed "first") "Safe";
         resultOf string Address (plainParsed "third") "Safe" ].
Proof.
  split; [vm_compute; reflexivity|]. split; [reflexivity|].
  split; [vm_compute; reflexivity|].
  exact (proj1 (container_survives_bad_message asciiToLower sampleDecoder
                  string (fun _ => Ok "Safe") Address
                  (plainMessage "first") corruptedMessage (plainMessage "third")
                  (plainParsed "first") (plainParsed "third") "Safe" "Safe" _
                  eq_refl eq_refl eq_refl eq_refl eq_refl)).
Defined.

(* ===================================================================== *)
(** ** The further properties on the sample messages *)
(* ===================================================================== *)

Lemma every_url_is_a_web_address_witness :
  extractBodyAndURLs asciiToLower sampleDecoder
    (leafEntity noFields (Ok ("text/plain", ∅)) (trimmingText, None)) =
    Ok (trimmingText, ["http://example.com/page"; "http://google.com"])
  /\ Forall (fun u => isWebURL u = true
                      /\ allBytes (fun c => negb (Ascii.eqb c dq)) u = true)
            ["http://example.com/page"; "http://google.com"].
Proof.
  assert (H : extractBodyAndURLs asciiToLower sampleDecoder
                (leafEntity noFields (Ok ("text/plain", ∅)) (trimmingText, None)) =
              Ok (trimmingText, ["http://example.com/page"; "http://google.com"]))
    by (vm_compute; reflexivity).
  split; [exact H|].
  exact (every_url_is_a_web_address asciiToLower sampleDecoder _ _ _ H).
Defined.

Lemma body_has_no_outer_white_space_witness :
  extractBodyAndURLs asciiToLower sampleDecoder
    (leafEntity noFields (Ok ("text/plain", ∅)) ("  hello " +:+ CRLF, None)) =
    Ok ("hello", [])
  /\ spaceAtHead "hello" = false /\ spaceAtEnd "hello" = false
  /\ TrimSpace "hello" = "hello".
Proof.
  assert (H : extractBodyAndURLs asciiToLower sampleDecoder
                (leafEntity noFields (Ok ("text/plain", ∅))
                   ("  hello " +:+ CRLF, None)) =
              Ok ("hello", []))
    by (vm_compute; reflexivity).
  split; [exact H|].
  exact (body_has_no_outer_white_space asciiToLower sampleDecoder _ _ _ H).
Defined.

Lemma message_id_has_no_brackets_witness :
  exists parsedEmail,
    Parse asciiToLower sampleDecoder idMessage = Ok parsedEmail
    /\ MessageID parsedEmail = "id@example.com"
    /\ startsIn (MessageID parsedEmail) "<> " = false
    /\ endsIn (MessageID parsedEmail) "<> " = false
    /\ Trim (MessageID parsedEmail) "<> " = MessageID parsedEmail.
Proof.
  destruct (Parse asciiToLower sampleDecoder idMessage) as [parsedEmail|err] eqn:H;
    [|vm_compute in H; discriminate H].
  exists parsedEmail. split; [reflexivity|]. split.
  - vm_compute in H. injection H as <-. reflexivity.
  - destruct (message_id_has_no_brackets asciiToLower sampleDecoder
                string (fun _ => Ok "Safe") Address idMessage parsedEmail H)
      as (Hs & He & Ht & _).
    now split; [|split].
Defined.

Lemma skipped_part_leaves_no_trace_witness :
  skippedPart pngPart = true
  /\ extractBodyAndURLs asciiToLower sampleDecoder
       (mixedEntity [plainPart "first"; pngPart; plainPart "second"]) =
     extractBodyAndURLs asciiToLower sampleDecoder
       (mixedEntity [plainPart "first"; plainPart "second"]).
Proof.
  split; [reflexivity|].
  exact (skipped_part_leaves_no_trace asciiToLower sampleDecoder
           (mixedEntity [plainPart "first"; pngPart; plainPart "second"])
           "multipart/mixed" {[ "boundary" := "b" ]}
           [plainPart "first"] pngPart [plainPart "second"]
           eq_refl eq_refl ltac:(vm_compute; discriminate) eq_refl eq_refl).
Defined.

Lemma other_media_type_gives_empty_body_witness :
  extractBodyAndURLs asciiToLower sampleDecoder pdfEntity = Ok (EmptyString, [])
  /\ exists parsedEmail,
       Parse asciiToLower sampleDecoder {| message_Read := Ok pdfEntity |} =
         Ok parsedEmail
       /\ Body_ parsedEmail = EmptyString /\ URLs parsedEmail = [].
Proof.
  destruct (other_media_type_gives_empty_body asciiToLower sampleDecoder
              pdfEntity "application/pdf" ∅ eq_refl eq_refl
              ltac:(discriminate) ltac:(discriminate)) as [He Hp].
  split; [exact He|]. exact (Hp {| message_Read := Ok pdfEntity |} eq_refl).
Defined.

Lemma unparsable_content_type_is_plain_text_witness :
  extractBodyAndURLs asciiToLower sampleDecoder unparsableTypeEntity =
    Ok ("<b>see</b> http://x.example/a.", ["http://x.example/a"]).
Proof.
  rewrite (proj2 (unparsable_content_type_is_plain_text asciiToLower sampleDecoder
                    unparsableTypeEntity _ eq_refl) _ eq_refl).
  vm_compute. reflexivity.
Defined.

Lemma declared_charset_is_decoded_witness :
  decodeCharset asciiToLower sampleDecoder "abc" "Shift_JIS" = Ok "abc"
  /\ decodeDeclared asciiToLower sampleDecoder "abc" "Shift_JIS" = "abc".
Proof.
  destruct (declared_charset_is_decoded asciiToLower sampleDecoder
              "abc" "Shift_JIS" ShiftJIS "abc"
              ltac:(discriminate)
              ltac:(vm_compute; apply list_elem_of_further, list_elem_of_here)
              eq_refl) as (Hd & Hdd & _).
  now split.
Defined.

Lemma prompt_ignores_the_body_past_4000_bytes_witness :
  buildPrompt Address (fun _ _ => (EmptyString, Some (LibError "mail: header not defined")))
    (withBody (plainParsed EmptyString) (filler 4000 "x")) =
  buildPrompt Address (fun _ _ => (EmptyString, Some (LibError "mail: header not defined")))
    (withBody (plainParsed EmptyString) (filler 4000 "yz")).
Proof.
  exact (proj1 (prompt_ignores_the_body_past_4000_bytes string Address
                  (fun _ _ => (EmptyString, Some (LibError "mail: header not defined")))
                  (fun _ => Ok "Safe")
                  (plainParsed EmptyString) (filler 4000 "x") (filler 4000 "yz")
                  ltac:(apply Nat.ltb_lt; vm_compute; reflexivity)
                  ltac:(apply Nat.ltb_lt; vm_compute; reflexivity)
                  ltac:(vm_compute; reflexivity))).
Defined.

Lemma Load_always_names_a_model_witness :
  Load sampleOpen sampleIsNotExist sampleDecode sampleEnv "missing.json" =
    Ok (mkConfig "key" EmptyString "gpt-4-turbo")
  /\ ModelName (mkConfig "key" EmptyString "gpt-4-turbo") <> EmptyString.
Proof.
  split; [reflexivity|].
  exact (proj1 (Load_always_names_a_model sampleOpen sampleIsNotExist
                  sampleDecode sampleEnv "missing.json"
                  (mkConfig "key" EmptyString "gpt-4-turbo") eq_refl)).
Defined.

Lemma Load_without_the_file_witness :
  Load sampleOpen sampleIsNotExist sampleDecode sampleEnv "missing.json" =
    Load sampleOpen sampleIsNotExist sampleDecode sampleEnv EmptyString
  /\ Load sampleOpen sampleIsNotExist sampleDecode sampleEnv "secret.json" =
       Err (LibError "permission denied").
Proof.
  split.
  - exact (proj1 (Load_without_the_file sampleOpen sampleIsNotExist
                    sampleDecode sampleEnv "missing.json" _ eq_refl) eq_refl).
  - exact (proj2 (Load_without_the_file sampleOpen sampleIsNotExist
                    sampleDecode sampleEnv "secret.json" _ eq_refl) eq_refl
             ltac:(discriminate)).
Defined.

Lemma html_body_keeps_no_tag_on_one_line_witness :
  extractBodyAndURLs asciiToLower sampleDecoder
    (leafEntity noFields (Ok ("text/html", ∅)) (htmlText, None)) =
    Ok ("Hello  This is a  link .", ["https://example.org"])
  /\ hasLineTag "Hello  This is a  link ." = false
  /\ FindAllString tagRegex "Hello  This is a  link ." = []
  /\ ReplaceAllString tagRegex "Hello  This is a  link ." " " =
       "Hello  This is a  link .".
Proof.
  assert (H : extractBodyAndURLs asciiToLower sampleDecoder
                (leafEntity noFields (Ok ("text/html", ∅)) (htmlText, None)) =
              Ok ("Hello  This is a  link .", ["https://example.org"]))
    by (vm_compute; reflexivity).
  split; [exact H|].
  exact (html_body_keeps_no_tag_on_one_line asciiToLower sampleDecoder
           (leafEntity noFields (Ok ("text/html", ∅)) (htmlText, None))
           ∅ _ _ eq_refl H).
Defined.

Lemma every_url_stands_in_the_text_witness :
  extractBodyAndURLs asciiToLower sampleDecoder
    (leafEntity noFields (Ok ("text/plain", ∅)) (trimmingText, None)) =
    Ok (trimmingText, ["http://example.com/page"; "http://google.com"])
  /\ Forall (fun u => Contains trimmingText u = true)
            ["http://example.com/page"; "http://google.com"].
Proof.
  assert (H : extractBodyAndURLs asciiToLower sampleDecoder
                (leafEntity noFields (Ok ("text/plain", ∅)) (trimmingText, None)) =
              Ok (trimmingText, ["http://example.com/page"; "http://google.com"]))
    by (vm_compute; reflexivity).
  split; [exact H|].
  exact (proj2 (every_url_stands_in_the_text asciiToLower sampleDecoder
                  (leafEntity noFields (Ok ("text/plain", ∅)) (trimmingText, None))
                  "text/plain" ∅ trimmingText _ _ eq_refl eq_refl eq_refl H)
           eq_refl).
Defined.

Lemma prompt_lists_every_url_witness :
  Contains
    (buildPrompt Address
       (fun _ _ => (EmptyString, Some (LibError "mail: header not defined")))
       linkParsed)
    (LF +:+ "http://y.example/b" +:+ LF) = true.
Proof.
  apply (prompt_lists_every_url Address
           (fun _ _ => (EmptyString, Some (LibError "mail: header not defined")))
           linkParsed "http://y.example/b").
  apply list_elem_of_further, list_elem_of_here.
Defined.

Lemma judgment_needs_a_clean_response_witness :
  judgmentOf string sampleUnmarshal sampleUnmarshal standardResponse = Ok "{}"
  /\ Error standardResponse = None
  /\ exists arguments, sampleUnmarshal arguments = Ok "{}".
Proof.
  split; [reflexivity|].
  destruct (judgment_needs_a_clean_response string sampleUnmarshal sampleUnmarshal
              standardResponse "{}" eq_refl) as (He & _ & Ha).
  now split.
Defined.

Lemma tool_request_block_is_final_witness :
  FindStringSubmatch1 toolRequestRegex
    "Here: [TOOL_REQUEST] oops [END_TOOL_REQUEST] done" = Some " oops "
  /\ judgmentOf string sampleUnmarshal sampleUnmarshal standardResponse = Ok "{}"
  /\ judgmentOf string sampleUnmarshal sampleUnmarshal blockResponse =
       Err (Wrapf "could not unmarshal tool call response"
              (LibError "invalid character looking for beginning of value")).
Proof.
  split; [vm_compute; reflexivity|]. split; [reflexivity|].
  destruct (tool_request_block_is_final string sampleUnmarshal sampleUnmarshal
              blockResponse _ [] " oops " eq_refl eq_refl
              ltac:(vm_compute; reflexivity)) as (_ & _ & H).
  exact (H _ ltac:(vm_compute; reflexivity)).
Defined.

Lemma plain_text_link_is_not_missed_witness :
  extractBodyAndURLs asciiToLower sampleDecoder
    (leafEntity noFields (Ok ("text/plain", ∅)) (trimmingText, None)) =
    Ok (trimmingText, ["http://example.com/page"; "http://google.com"])
  /\ ["http://example.com/page"; "http://google.com"] <> [].
Proof.
  assert (H : extractBodyAndURLs asciiToLower sampleDecoder
                (leafEntity noFields (Ok ("text/plain", ∅)) (trimmingText, None)) =
              Ok (trimmingText, ["http://example.com/page"; "http://google.com"]))
    by (vm_compute; reflexivity).
  split; [exact H|].
  exact (plain_text_link_is_not_missed asciiToLower sampleDecoder
           (leafEntity noFields (Ok ("text/plain", ∅)) (trimmingText, None))
           ∅ trimmingText _ _
           "Check this out: " "http://" "e"
           "xample.com/page, or this one: http://google.com)."
           eq_refl eq_refl eq_refl (or_introl eq_refl) eq_refl H).
Defined.
